(** * seed-fe-request: a shallow embedding of the request wrapper

    The development embeds the repository's single module (the interceptor
    normalizer, the bulk attach helper, the instance registry and the
    [request] dispatcher) and proves the properties stated about it.

    The module is glue code over the axios HTTP client.  The three axios
    primitives it calls are modelled in [Module Axios]:
    - [InterceptorManager]: axios keeps an array [handlers]; [use] pushes a
      handler object and returns its index, [eject] overwrites the slot with
      [null] when the slot holds a handler, and the chain that runs for a
      request is made of the slots that are not [null];
    - [create]: the instance built by [axios.create(config)] carries the
      configuration it was created from in [defaults] (axios merges unknown
      keys into the defaults unchanged) and starts with two empty managers;
    - [instance.request(config)] is the network call: its settlement is a
      parameter of the development ([send]). *)

From stdpp Require Import base option list strings gmap.
From Stdlib Require Import ZArith Lia.

(** ** JavaScript values that reach the interceptor chains *)

(** A function value; only its identity matters here. *)
Definition Fn : Type := nat.

(** A property of an object literal: the key may be missing, or present with
    a value that may be [undefined]. *)
Inductive Field : Type :=
| Absent
| Present (v : option Fn).

(** ['k' in o] *)
Definition has_key (f : Field) : bool :=
  match f with Absent => false | Present _ => true end.

(** [o.k], [undefined] when the key is missing. *)
Definition get_field (f : Field) : option Fn :=
  match f with Absent => None | Present v => v end.

(** [InterceptorObjectBase] of types.ts: both properties are optional. *)
Record InterceptorObject : Type := {
  onConfig : Field;
  onError : Field
}.

(** [AnyRequestInterceptor] / [AnyResponseInterceptor] of types.ts: a bare
    function, an array of functions, or an object. *)
Inductive AnyInterceptor : Type :=
| IFunction (f : Fn)
| ITuple (elems : list Fn)
| IObject (o : InterceptorObject).

(** What a slot of a handler object may hold. *)
Inductive JsVal : Type :=
| VUndefined
| VFunction (f : Fn)
| VRethrow                      (* the arrow [(error) => Promise.reject(error)] *)
| VObject (o : InterceptorObject).

Definition of_option (o : option Fn) : JsVal :=
  match o with Some f => VFunction f | None => VUndefined end.

(** [typeof v === 'function'] *)
Definition is_function (v : JsVal) : bool :=
  match v with VFunction _ | VRethrow => true | _ => false end.

Global Instance Field_eq_dec : EqDecision Field.
Proof. solve_decision. Defined.
Global Instance InterceptorObject_eq_dec : EqDecision InterceptorObject.
Proof. solve_decision. Defined.
Global Instance AnyInterceptor_eq_dec : EqDecision AnyInterceptor.
Proof. solve_decision. Defined.
Global Instance JsVal_eq_dec : EqDecision JsVal.
Proof. solve_decision. Defined.

(** ** The axios collaborator *)

Module Axios.

(** The object pushed by [InterceptorManager.use]. *)
Record Handler : Type := {
  fulfilled : JsVal;
  rejected : JsVal
}.

Global Instance Handler_eq_dec : EqDecision Handler.
Proof. solve_decision. Defined.

(** [InterceptorManager.handlers]; [None] is an ejected ([null]) slot. *)
Abbreviation InterceptorManager := (list (option Handler)).

(** [use(fulfilled, rejected)]: push, return [handlers.length - 1]. *)
Definition use (f r : JsVal) (m : InterceptorManager) : Z * InterceptorManager :=
  (Z.of_nat (length m), m ++ [Some {| fulfilled := f; rejected := r |}]).

(** [eject(id)]: [if (this.handlers[id]) this.handlers[id] = null]. *)
Definition eject (id : Z) (m : InterceptorManager) : InterceptorManager :=
  if (id <? 0)%Z then m
  else match m !! Z.to_nat id with
       | Some (Some _) => <[Z.to_nat id := None]> m
       | _ => m
       end.

(** The handlers visited by [forEach], which skips the [null] slots: the
    interceptors that are on the chain. *)
Definition chain (m : InterceptorManager) : list Handler := omap id m.

(** How many callbacks a handler carries. *)
Definition callbacks (h : Handler) : nat :=
  (if is_function (fulfilled h) then 1 else 0) +
  (if is_function (rejected h) then 1 else 0).

Record Interceptors : Type := {
  request : InterceptorManager;
  response : InterceptorManager
}.

Section Instance.
Context {Config : Type}.

Record Instance : Type := {
    defaults : Config;
    interceptors : Interceptors
  }.

(** [axios.create(config)] *)
Definition create (config : Config) : Instance :=
    {| defaults := config;
       interceptors := {| request := []; response := [] |} |}.

(** [instance.interceptors.request.use(f, r)] *)
Definition use_request (f r : JsVal) (i : Instance) : Z * Instance :=
    let '(id, m) := use f r (request (interceptors i)) in
    (id, {| defaults := defaults i;
            interceptors := {| request := m;
                               response := response (interceptors i) |} |}).

(** [instance.interceptors.response.use(f, r)] *)
Definition use_response (f r : JsVal) (i : Instance) : Z * Instance :=
    let '(id, m) := use f r (response (interceptors i)) in
    (id, {| defaults := defaults i;
            interceptors := {| request := request (interceptors i);
                               response := m |} |}).

(** [instance.interceptors.request.eject(id)] *)
Definition eject_request (id : Z) (i : Instance) : Instance :=
    {| defaults := defaults i;
       interceptors := {| request := eject id (request (interceptors i));
                          response := response (interceptors i) |} |}.

(** [instance.interceptors.response.eject(id)] *)
Definition eject_response (id : Z) (i : Instance) : Instance :=
    {| defaults := defaults i;
       interceptors := {| request := request (interceptors i);
                          response := eject id (response (interceptors i)) |} |}.
End Instance.
Global Arguments Instance : clear implicits.

(** [AxiosResponse]: the full envelope. *)
Record Response : Type := {
  status : nat;
  headers : list (string * string);
  data : string
}.

End Axios.

(** ** Data model (types.ts) *)

(** [InstanceName = symbol | string].  The symbols that matter are the
    registered ones, [Symbol.for(key)], equal exactly when their keys are. *)
Inductive InstanceName : Type :=
| SymbolFor (key : string)
| Name (s : string).

Global Instance InstanceName_eq_dec : EqDecision InstanceName.
Proof. solve_decision. Defined.

Global Instance InstanceName_countable : Countable InstanceName.
Proof.
  refine (inj_countable'
            (λ n, match n with SymbolFor k => inl k | Name s => inr s end)
            (λ x, match x with inl k => SymbolFor k | inr s => Name s end) _).
  by intros [].
Defined.

(** [String(instanceName)] *)
Definition String_ (n : InstanceName) : string :=
  match n with
  | SymbolFor k => "Symbol(" +:+ k +:+ ")"
  | Name s => s
  end.

(** [!!instanceName]: a symbol is truthy, a string is truthy unless empty. *)
Definition truthy_name (n : option InstanceName) : bool :=
  match n with
  | None => false
  | Some (SymbolFor _) => true
  | Some (Name s) => negb (String.eqb s EmptyString)
  end.

(** [!!flag] for an optional boolean. *)
Definition truthy (b : option bool) : bool :=
  match b with Some true => true | _ => false end.

(** [interceptors.request] / [interceptors.response]: one object, or an array
    of interceptors of any shape. *)
Inductive InterceptorDecl : Type :=
| Single (o : InterceptorObject)
| Several (l : list AnyInterceptor).

(** [Array.isArray(d) ? d : [d]] *)
Definition to_array (d : InterceptorDecl) : list AnyInterceptor :=
  match d with Single o => [IObject o] | Several l => l end.

Record InterceptorsConfig : Type := {
  interceptors_request : option InterceptorDecl;
  interceptors_response : option InterceptorDecl
}.

Record ErrorConfig : Type := {
  errorHandler : option Fn;
  errorThrower : option Fn
}.

(** [CustomRequestConfig]: the fields this module adds to the axios request
    options, and of the native options the two the verb helpers set. *)
Record CustomRequestConfig : Type := {
  url : option string;
  method : option string;
  instanceName : option InstanceName;
  skipErrorHandler : option bool;
  withFullResponse : option bool;
  errorConfig : option ErrorConfig;
  interceptors : option InterceptorsConfig;
  requestInterceptors : option (list AnyInterceptor);
  responseInterceptors : option (list AnyInterceptor)
}.

Global Instance InterceptorDecl_eq_dec : EqDecision InterceptorDecl.
Proof. solve_decision. Defined.
Global Instance InterceptorsConfig_eq_dec : EqDecision InterceptorsConfig.
Proof. solve_decision. Defined.
Global Instance ErrorConfig_eq_dec : EqDecision ErrorConfig.
Proof. solve_decision. Defined.
Global Instance CustomRequestConfig_eq_dec : EqDecision CustomRequestConfig.
Proof. solve_decision. Defined.

Abbreviation AxiosInstance := (Axios.Instance CustomRequestConfig).

(** [InterceptorId = number] *)
Abbreviation InterceptorId := Z (only parsing).

(** What can be thrown.  The first three are the [Error]s this module
    constructs; [Foreign] stands for every other value (what the underlying
    call rejects with, what a user callback throws). *)
Inductive Error : Type :=
| InstanceExists (n : InstanceName)
| NameRequired
| InstanceNotFound (n : InstanceName)
| Foreign (tag : nat).

Global Instance Error_eq_dec : EqDecision Error.
Proof. solve_decision. Defined.

(** [error.message] of the errors built here. *)
Definition message (e : Error) : string :=
  match e with
  | InstanceExists n =>
      "Instance " +:+ String_ n +:+ " already exists, cannot be defined again"
  | NameRequired =>
      "Default instance already exists, must specify instanceName for new instance"
  | InstanceNotFound n =>
      "Axios instance not found for instanceName: " +:+ String_ n
  | Foreign _ => EmptyString
  end.

(** What [request] resolves to. *)
Inductive Resolved : Type :=
| Envelope (response : Axios.Response)
| Payload (d : string).

(** ** Module state and observable calls *)

Inductive Side : Type := RequestSide | ResponseSide.
Inductive Level : Type := CallLevel | InstanceLevel.

(** The calls on collaborators that the properties speak about, in the order
    they are made. *)
Inductive Event : Type :=
| Warned (msg : string)                       (* console.warn *)
| Logged (msg : string)                       (* console.log *)
| Sent (n : InstanceName) (config : CustomRequestConfig)   (* instance.request *)
| Ejected (n : InstanceName) (s : Side) (id : InterceptorId)
| Handled (l : Level) (h : Fn) (e : Error) (config : CustomRequestConfig).

Global Instance Side_eq_dec : EqDecision Side.
Proof. solve_decision. Defined.
Global Instance Level_eq_dec : EqDecision Level.
Proof. solve_decision. Defined.
Global Instance Event_eq_dec : EqDecision Event.
Proof. solve_decision. Defined.

(** The module-level [instanceMap] together with the trace of calls.  An
    instance is an object held by the map only, so a mutation made through a
    reference obtained from the map is a mutation of the entry. *)
Record World : Type := {
  instanceMap : gmap InstanceName AxiosInstance;
  events : list Event
}.

Definition emptyWorld : World := {| instanceMap := ∅; events := [] |}.

(** ** Statements that may throw *)

Inductive Completion (A : Type) : Type :=
| Normal (a : A)
| Throw (e : Error).
Global Arguments Normal {A} a.
Global Arguments Throw {A} e.

Definition M (A : Type) : Type := World → Completion A * World.

Definition ret {A} (a : A) : M A := λ w, (Normal a, w).

Definition throw {A} (e : Error) : M A := λ w, (Throw e, w).

Definition bind {A B} (m : M A) (k : A → M B) : M B := λ w,
  match m w with
  | (Normal a, w') => k a w'
  | (Throw e, w') => (Throw e, w')
  end.

Declare Scope js_scope.
Delimit Scope js_scope with js.
Notation "'let*' x := m 'in' k" := (bind m (λ x, k))
  (at level 10, x name, m at level 100, k at level 200, only parsing) : js_scope.
Notation "m ;;; k" := (bind m (λ _, k))
  (at level 100, k at level 200, right associativity, only parsing) : js_scope.

(** [try { body } catch (error) { handler }] *)
Definition try_catch {A} (body : M A) (handler : Error → M A) : M A := λ w,
  match body w with
  | (Normal a, w') => (Normal a, w')
  | (Throw e, w') => handler e w'
  end.

(** [try { body } finally { cleanup }] *)
Definition try_finally {A} (body : M A) (cleanup : M unit) : M A := λ w,
  match body w with
  | (r, w') =>
      match cleanup w' with
      | (Normal _, w'') => (r, w'')
      | (Throw e, w'') => (Throw e, w'')
      end
  end.

(** [array.forEach(f)] with an effectful callback. *)
Fixpoint forEach {A} (f : A → M unit) (l : list A) : M unit :=
  match l with
  | [] => ret tt
  | x :: l' => bind (f x) (λ _, forEach f l')
  end.

Definition emit (e : Event) : M unit := λ w,
  (Normal tt, {| instanceMap := instanceMap w; events := events w ++ [e] |}).

(** [instanceMap.has(k)], [instanceMap.size], [instanceMap.get(k)],
    [instanceMap.set(k, v)] *)
Definition Map_has (k : InstanceName) : M bool := λ w,
  (Normal (bool_decide (is_Some (instanceMap w !! k))), w).

Definition Map_size : M nat := λ w, (Normal (size (instanceMap w)), w).

Definition Map_get (k : InstanceName) : M (option AxiosInstance) := λ w,
  (Normal (instanceMap w !! k), w).

Definition Map_set (k : InstanceName) (v : AxiosInstance) : M unit := λ w,
  (Normal tt, {| instanceMap := <[k := v]> (instanceMap w); events := events w |}).

(** [[...instanceMap.entries()].find(([name]) => name === k)?.[1]] *)
Definition Map_find_entry (k : InstanceName) : M (option AxiosInstance) := λ w,
  (Normal ((λ e, (e.2).2) <$>
           list_find (λ kv : InstanceName * AxiosInstance, kv.1 = k)
                     (map_to_list (instanceMap w))), w).

(** A mutation of the instance object registered under [k]. *)
Definition mutate (k : InstanceName) (f : AxiosInstance → AxiosInstance) : M unit := λ w,
  (Normal tt, {| instanceMap := alter f k (instanceMap w); events := events w |}).

(** ** The request module *)

Local Open Scope js_scope.

Definition INVALID_INTERCEPTOR_ID : InterceptorId := (-1)%Z.

Definition DEFAULT_INSTANCE_NAME : InstanceName := SymbolFor "default".

(** [handleRequestInterceptor].  The three tests of the source are taken in
    order: (1) not an array, [typeof] object and ['onConfig' in interceptor];
    (2) [Array.isArray]; (3) anything else is handed to [use] as if it were a
    function.  An object without the [onConfig] key fails (1) and (2) and so
    reaches (3). *)
Definition handleRequestInterceptor (instance : AxiosInstance)
    (interceptor : AnyInterceptor) : InterceptorId * AxiosInstance :=
  match interceptor with
  | IObject o =>
      if has_key (onConfig o) then
        match get_field (onConfig o) with
        | Some f =>
            Axios.use_request (VFunction f)
              (match get_field (onError o) with
               | Some g => VFunction g
               | None => VRethrow
               end) instance
        | None => (INVALID_INTERCEPTOR_ID, instance)
        end
      else Axios.use_request (VObject o) VUndefined instance
  | ITuple elems =>
      if length elems =? 2
      then Axios.use_request (of_option (elems !! 0)) (of_option (elems !! 1)) instance
      else Axios.use_request (of_option (elems !! 0)) VUndefined instance
  | IFunction f => Axios.use_request (VFunction f) VUndefined instance
  end.

(** [handleResponseInterceptor]: the same on the response manager. *)
Definition handleResponseInterceptor (instance : AxiosInstance)
    (interceptor : AnyInterceptor) : InterceptorId * AxiosInstance :=
  match interceptor with
  | IObject o =>
      if has_key (onConfig o) then
        match get_field (onConfig o) with
        | Some f =>
            Axios.use_response (VFunction f)
              (match get_field (onError o) with
               | Some g => VFunction g
               | None => VRethrow
               end) instance
        | None => (INVALID_INTERCEPTOR_ID, instance)
        end
      else Axios.use_response (VObject o) VUndefined instance
  | ITuple elems =>
      if length elems =? 2
      then Axios.use_response (of_option (elems !! 0)) (of_option (elems !! 1)) instance
      else Axios.use_response (of_option (elems !! 0)) VUndefined instance
  | IFunction f => Axios.use_response (VFunction f) VUndefined instance
  end.

(** The locals of [addInterceptorsToInstance]: the instance being mutated and
    the two arrays of collected identifiers. *)
Record Attach : Type := {
  instance_ : AxiosInstance;
  requestIds : list InterceptorId;
  responseIds : list InterceptorId
}.

(** The callback of the request-side [forEach]:
    [if (id !== INVALID_INTERCEPTOR_ID && isOneTime) requestIds.push(id)]. *)
Definition attachRequest (isOneTime : bool) (st : Attach)
    (interceptor : AnyInterceptor) : Attach :=
  let '(id, instance) := handleRequestInterceptor (instance_ st) interceptor in
  {| instance_ := instance;
     requestIds := if negb (id =? INVALID_INTERCEPTOR_ID)%Z && isOneTime
                   then requestIds st ++ [id] else requestIds st;
     responseIds := responseIds st |}.

(** The callback of the response-side [forEach]. *)
Definition attachResponse (isOneTime : bool) (st : Attach)
    (interceptor : AnyInterceptor) : Attach :=
  let '(id, instance) := handleResponseInterceptor (instance_ st) interceptor in
  {| instance_ := instance;
     requestIds := requestIds st;
     responseIds := if negb (id =? INVALID_INTERCEPTOR_ID)%Z && isOneTime
                    then responseIds st ++ [id] else responseIds st |}.

(** [addInterceptorsToInstance(instance, config, isOneTime)]: the nested
    [interceptors.request], then [interceptors.response], then the two flat
    arrays. *)
Definition addInterceptorsToInstance (instance : AxiosInstance)
    (config : CustomRequestConfig) (isOneTime : bool) : Attach :=
  let st0 := {| instance_ := instance; requestIds := []; responseIds := [] |} in
  let st1 :=
    match interceptors config with
    | Some ic =>
        let sa :=
          match interceptors_request ic with
          | Some d => foldl (attachRequest isOneTime) st0 (to_array d)
          | None => st0
          end in
        match interceptors_response ic with
        | Some d => foldl (attachResponse isOneTime) sa (to_array d)
        | None => sa
        end
    | None => st0
    end in
  let st2 :=
    match requestInterceptors config with
    | Some l => foldl (attachRequest isOneTime) st1 l
    | None => st1
    end in
  match responseInterceptors config with
  | Some l => foldl (attachResponse isOneTime) st2 l
  | None => st2
  end.

(** The body of the [forEach] callback of [defineRequestConfig]. *)
Definition defineOne (config : CustomRequestConfig) : M unit :=
  let name := default DEFAULT_INSTANCE_NAME (instanceName config) in
  let* exists_ := Map_has name in
  if exists_ : bool then
    let* n := Map_size in
    if bool_decide (name = DEFAULT_INSTANCE_NAME) && (n =? 0)
    then emit (Warned "Default instance already defined, ignoring this definition")
    else throw (InstanceExists name)
  else
    let* hasDefault := Map_has DEFAULT_INSTANCE_NAME in
    if negb (truthy_name (instanceName config)) && hasDefault
    then throw NameRequired
    else
      let instance := Axios.create config in
      let instance := instance_ (addInterceptorsToInstance instance config false) in
      Map_set name instance;;;
      emit (Logged ("Successfully defined request instance: " +:+ String_ name)).

(** The argument of [defineRequestConfig]: one configuration or an array. *)
Inductive Configs : Type :=
| OneConfig (config : CustomRequestConfig)
| ManyConfigs (configs : list CustomRequestConfig).

(** [Array.isArray(configs) ? configs : [configs]] *)
Definition configsArray (configs : Configs) : list CustomRequestConfig :=
  match configs with OneConfig c => [c] | ManyConfigs l => l end.

(** [defineRequestConfig(configs)] *)
Definition defineRequestConfig (configs : Configs) : M unit :=
  forEach defineOne (configsArray configs).

(** [getRequestInstance(instanceName?)] *)
Definition getRequestInstance (name : option InstanceName) : M AxiosInstance :=
  let* instance := Map_get (default DEFAULT_INSTANCE_NAME name) in
  match instance with
  | Some i => ret i
  | None => throw (InstanceNotFound (default DEFAULT_INSTANCE_NAME name))
  end.

(** [{ ...config, withFullResponse: config.withFullResponse !== undefined ?
       config.withFullResponse : instanceConfig?.withFullResponse }] *)
Definition mergeConfig (config : CustomRequestConfig)
    (instanceConfig : option CustomRequestConfig) : CustomRequestConfig :=
  {| url := url config;
     method := method config;
     instanceName := instanceName config;
     skipErrorHandler := skipErrorHandler config;
     withFullResponse :=
       match withFullResponse config with
       | Some b => Some b
       | None => match instanceConfig with
                 | Some c => withFullResponse c
                 | None => None
                 end
       end;
     errorConfig := errorConfig config;
     interceptors := interceptors config;
     requestInterceptors := requestInterceptors config;
     responseInterceptors := responseInterceptors config |}.

(** [entry?.defaults] *)
Definition defaults_of (entry : option AxiosInstance) : option CustomRequestConfig :=
  match entry with
  | Some i => Some (Axios.defaults i)
  | None => None
  end.

(** [c?.errorConfig?.errorHandler] *)
Definition errorHandler_of (c : option CustomRequestConfig) : option Fn :=
  match c with
  | Some c =>
      match errorConfig c with
      | Some ec => errorHandler ec
      | None => None
      end
  | None => None
  end.

Section Dispatcher.

(** The settlement of [instance.request(mergedConfig)]: rejection or
    response, whatever the state of the instance at the call. *)
Context (send : AxiosInstance → CustomRequestConfig → Error + Axios.Response).

(** What calling the error handler [h] with [(error, { config })] does:
    return ([None]) or throw. *)
Context (runHandler : Fn → Error → CustomRequestConfig → option Error).

(** [await instance.request(mergedConfig)] on the instance registered under
    [name], whose state at the call is [instance], for a call that is resumed
    before anything else runs; [request_prepare] and [request_settle] below
    give the call on either side of its suspension. *)
Definition instance_request (name : InstanceName) (instance : AxiosInstance)
    (mergedConfig : CustomRequestConfig) : M Axios.Response :=
  emit (Sent name mergedConfig);;;
  match send instance mergedConfig with
  | inl e => throw e
  | inr response => ret response
  end.

(** [handler(error, { config: mergedConfig })] *)
Definition callErrorHandler (l : Level) (h : Fn) (error : Error)
    (mergedConfig : CustomRequestConfig) : M unit :=
  emit (Handled l h error mergedConfig);;;
  match runHandler h error mergedConfig with
  | None => ret tt
  | Some e => throw e
  end.

(** The [try] block of [request]. *)
Definition request_try (config : CustomRequestConfig) : M Resolved :=
  let name := default DEFAULT_INSTANCE_NAME (instanceName config) in
  let* instance := getRequestInstance (Some name) in
  let* entry := Map_find_entry name in
  let instanceConfig := defaults_of entry in
  let mergedConfig := mergeConfig config instanceConfig in
  let attached := addInterceptorsToInstance instance mergedConfig true in
  (* [instance] is the object held by the registry: the attach above has
     mutated the entry under [name] *)
  Map_set name (instance_ attached);;;
  try_finally
    (let* response := instance_request name (instance_ attached) mergedConfig in
     ret (if truthy (withFullResponse mergedConfig)
          then Envelope response
          else Payload (Axios.data response)))
    (forEach (λ id, mutate name (Axios.eject_request id);;;
                    emit (Ejected name RequestSide id))
             (requestIds attached);;;
     forEach (λ id, mutate name (Axios.eject_response id);;;
                    emit (Ejected name ResponseSide id))
             (responseIds attached)).

(** The [catch (error)] block of [request]. *)
Definition request_catch (config : CustomRequestConfig) (error : Error) : M Resolved :=
  if truthy (skipErrorHandler config) then throw error
  else
    let* entry :=
      Map_find_entry (default DEFAULT_INSTANCE_NAME (instanceName config)) in
    let instanceConfig := defaults_of entry in
    let mergedConfig := mergeConfig config instanceConfig in
    match errorHandler_of (Some config) with
    | Some h => callErrorHandler CallLevel h error mergedConfig
    | None =>
        match errorHandler_of instanceConfig with
        | Some h => callErrorHandler InstanceLevel h error mergedConfig
        | None => ret tt
        end
    end;;;
    throw error.

(** [request(config)] *)
Definition request (config : CustomRequestConfig) : M Resolved :=
  try_catch (request_try config) (request_catch config).

End Dispatcher.

(** ** The verb helpers that carry no body *)

(** [{}], what [{ ...config }] gives when [config] is omitted. *)
Definition emptyObject : CustomRequestConfig :=
  {| url := None; method := None; instanceName := None;
     skipErrorHandler := None; withFullResponse := None; errorConfig := None;
     interceptors := None; requestInterceptors := None;
     responseInterceptors := None |}.

(** [{ ...config, method: m, url: u }] for an optional [config]. *)
Definition withMethodAndUrl (config : option CustomRequestConfig) (m u : string)
  : CustomRequestConfig :=
  let c := default emptyObject config in
  {| url := Some u;
     method := Some m;
     instanceName := instanceName c;
     skipErrorHandler := skipErrorHandler c;
     withFullResponse := withFullResponse c;
     errorConfig := errorConfig c;
     interceptors := interceptors c;
     requestInterceptors := requestInterceptors c;
     responseInterceptors := responseInterceptors c |}.

Section MethodSugar.
Context (send : AxiosInstance → CustomRequestConfig → Error + Axios.Response).
Context (runHandler : Fn → Error → CustomRequestConfig → option Error).

(** [httpRequest.get = (url, config?) => request({ ...config, method: 'GET', url })] *)
Definition httpRequest_get (u : string) (config : option CustomRequestConfig)
  : M Resolved :=
  request send runHandler (withMethodAndUrl config "GET" u).

(** [httpRequest.delete] *)
Definition httpRequest_delete (u : string) (config : option CustomRequestConfig)
  : M Resolved :=
  request send runHandler (withMethodAndUrl config "DELETE" u).

(** [httpRequest.head] *)
Definition httpRequest_head (u : string) (config : option CustomRequestConfig)
  : M Resolved :=
  request send runHandler (withMethodAndUrl config "HEAD" u).

(** [httpRequest.options] *)
Definition httpRequest_options (u : string) (config : option CustomRequestConfig)
  : M Resolved :=
  request send runHandler (withMethodAndUrl config "OPTIONS" u).

(** The four helpers with the verb each one sets. *)
Definition verbHelpers
  : list (string * (string → option CustomRequestConfig → M Resolved)) :=
  [("GET", httpRequest_get); ("DELETE", httpRequest_delete);
   ("HEAD", httpRequest_head); ("OPTIONS", httpRequest_options)].

End MethodSugar.

(** ** A call of [request] on either side of its [await]

    [request] is an [async] function: it runs up to
    [await instance.request(mergedConfig)], returns to its caller, and is
    resumed when the underlying call settles.  Other calls of the module can
    run in between.  [request] above is the call that nothing interleaves
    with; here are its two halves. *)

(** What a suspended call holds: its [config], its [mergedConfig] and the
    identifiers collected by its one-shot attach. *)
Record Pending : Type := {
  pending_config : CustomRequestConfig;
  pending_merged : CustomRequestConfig;
  pending_requestIds : list InterceptorId;
  pending_responseIds : list InterceptorId
}.

(** The [try] block up to the suspension: lookup, merge, one-shot attach and
    the invocation of [instance.request]. *)
Definition request_prepare (config : CustomRequestConfig) : M Pending :=
  let name := default DEFAULT_INSTANCE_NAME (instanceName config) in
  let* instance := getRequestInstance (Some name) in
  let* entry := Map_find_entry name in
  let instanceConfig := defaults_of entry in
  let mergedConfig := mergeConfig config instanceConfig in
  let attached := addInterceptorsToInstance instance mergedConfig true in
  Map_set name (instance_ attached);;;
  emit (Sent name mergedConfig);;;
  ret {| pending_config := config;
         pending_merged := mergedConfig;
         pending_requestIds := requestIds attached;
         pending_responseIds := responseIds attached |}.

Section Resumption.
Context (runHandler : Fn → Error → CustomRequestConfig → option Error).

(** The rest of the call, run when the underlying call has settled with
    [settlement]: the [return] or the rethrow, the [finally] block, and the
    [catch] block when the call was rejected. *)
Definition request_settle (p : Pending) (settlement : Error + Axios.Response)
  : M Resolved :=
  let name := default DEFAULT_INSTANCE_NAME (instanceName (pending_config p)) in
  try_catch
    (try_finally
       (match settlement with
        | inl e => throw e
        | inr response =>
            ret (if truthy (withFullResponse (pending_merged p))
                 then Envelope response
                 else Payload (Axios.data response))
        end)
       (forEach (λ id, mutate name (Axios.eject_request id);;;
                       emit (Ejected name RequestSide id))
                (pending_requestIds p);;;
        forEach (λ id, mutate name (Axios.eject_response id);;;
                       emit (Ejected name ResponseSide id))
                (pending_responseIds p)))
    (request_catch runHandler (pending_config p)).

End Resumption.

Local Close Scope js_scope.

(** ** Derived notions used in the statements *)

(** The instance stored by a successful registration of [config]: the fresh
    axios instance with the permanent interceptors of [config] attached. *)
Definition registered (config : CustomRequestConfig) : AxiosInstance :=
  instance_ (addInterceptorsToInstance (Axios.create config) config false).

(** The cleanup of [request] seen on the instance alone: every collected
    request-side identifier is ejected, then every response-side one. *)
Definition ejectAll (st : Attach) : AxiosInstance :=
  foldl (λ i id, Axios.eject_response id i)
        (foldl (λ i id, Axios.eject_request id i) (instance_ st) (requestIds st))
        (responseIds st).

(** The calls of error handlers recorded in a trace. *)
Definition handlerCalls (evs : list Event)
  : list (Level * Fn * Error * CustomRequestConfig) :=
  omap (λ ev, match ev with
              | Handled l h e c => Some (l, h, e, c)
              | _ => None
              end) evs.

(** The ejections recorded in a trace. *)
Definition ejections (evs : list Event) : list (InstanceName * Side * InterceptorId) :=
  omap (λ ev, match ev with
              | Ejected n s id => Some (n, s, id)
              | _ => None
              end) evs.

(** The warnings recorded in a trace. *)
Definition warnings (evs : list Event) : list string :=
  omap (λ ev, match ev with Warned msg => Some msg | _ => None end) evs.

(** The handler that the failure policy of [request] selects. *)
Definition selectedHandler (config : CustomRequestConfig)
    (instanceConfig : option CustomRequestConfig) : option (Level * Fn) :=
  match errorHandler_of (Some config) with
  | Some h => Some (CallLevel, h)
  | None =>
      match errorHandler_of instanceConfig with
      | Some h => Some (InstanceLevel, h)
      | None => None
      end
  end.

(** A call of the public interface. *)
Inductive Call : Type :=
| CallDefine (configs : Configs)
| CallRequest (config : CustomRequestConfig).

Section Runs.
Context (send : AxiosInstance → CustomRequestConfig → Error + Axios.Response).
Context (runHandler : Fn → Error → CustomRequestConfig → option Error).

(** The state after one call, whatever its completion. *)
Definition after (c : Call) (w : World) : World :=
  match c with
  | CallDefine configs => (defineRequestConfig configs w).2
  | CallRequest config => (request send runHandler config w).2
  end.

(** The state after a sequence of calls. *)
Definition run (cs : list Call) (w : World) : World :=
  foldl (λ w c, after c w) w cs.

End Runs.

(** What the one-shot attach maintains with respect to the instance [i0] it
    started from: it only pushes slots, and the identifiers it has collected
    are exactly those of the slots pushed so far, in order. *)
Record Tracked (i0 : AxiosInstance) (st : Attach) : Prop := {
  tracked_defaults : Axios.defaults (instance_ st) = Axios.defaults i0;
  tracked_request : ∃ news,
    Axios.request (Axios.interceptors (instance_ st))
      = Axios.request (Axios.interceptors i0) ++ news ∧
    requestIds st
      = Z.of_nat <$> seq (length (Axios.request (Axios.interceptors i0))) (length news);
  tracked_response : ∃ news,
    Axios.response (Axios.interceptors (instance_ st))
      = Axios.response (Axios.interceptors i0) ++ news ∧
    responseIds st
      = Z.of_nat <$> seq (length (Axios.response (Axios.interceptors i0))) (length news)
}.

(** The name [request] and [defineRequestConfig] resolve for [config]:
    [config.instanceName ?? DEFAULT_INSTANCE_NAME]. *)
Definition resolvedName (config : CustomRequestConfig) : InstanceName :=
  default DEFAULT_INSTANCE_NAME (instanceName config).

(** The one-shot attach that [request config] performs on the instance [i]. *)
Definition oneShot (config : CustomRequestConfig) (i : AxiosInstance) : Attach :=
  addInterceptorsToInstance i (mergeConfig config (Some (Axios.defaults i))) true.

(** The trace of the [try] block of [request config] on the instance [i]:
    the underlying call, then the ejections of the cleanup. *)
Definition dispatchEvents (config : CustomRequestConfig) (i : AxiosInstance)
  : list Event :=
  Sent (resolvedName config) (mergeConfig config (Some (Axios.defaults i)))
  :: (Ejected (resolvedName config) RequestSide <$> requestIds (oneShot config i))
  ++ (Ejected (resolvedName config) ResponseSide <$> responseIds (oneShot config i)).

(** The state in which the [try] block of [request config] leaves the module
    when the target instance was [i]. *)
Definition dispatched (config : CustomRequestConfig) (i : AxiosInstance)
    (w : World) : World :=
  {| instanceMap := <[resolvedName config := ejectAll (oneShot config i)]> (instanceMap w);
     events := events w ++ dispatchEvents config i |}.

(** The handler that the normalizer pushes for a declaration, if it pushes
    one: the closed form of [handleRequestInterceptor] and
    [handleResponseInterceptor], which differ in the manager only. *)
Definition normalized (interceptor : AnyInterceptor) : option Axios.Handler :=
  match interceptor with
  | IFunction f =>
      Some {| Axios.fulfilled := VFunction f; Axios.rejected := VUndefined |}
  | ITuple elems =>
      Some {| Axios.fulfilled := of_option (elems !! 0);
              Axios.rejected := if length elems =? 2
                                then of_option (elems !! 1) else VUndefined |}
  | IObject o =>
      if has_key (onConfig o) then
        match get_field (onConfig o) with
        | Some f =>
            Some {| Axios.fulfilled := VFunction f;
                    Axios.rejected := match get_field (onError o) with
                                      | Some g => VFunction g
                                      | None => VRethrow
                                      end |}
        | None => None
        end
      else Some {| Axios.fulfilled := VObject o; Axios.rejected := VUndefined |}
  end.

(** The request-side declarations of a configuration in the order
    [addInterceptorsToInstance] walks them: the nested
    [interceptors.request], then the flat [requestInterceptors]. *)
Definition declaredRequest (config : CustomRequestConfig) : list AnyInterceptor :=
  match interceptors config with
  | Some ic =>
      match interceptors_request ic with Some d => to_array d | None => [] end
  | None => []
  end ++
  match requestInterceptors config with Some l => l | None => [] end.

(** The response-side declarations, likewise. *)
Definition declaredResponse (config : CustomRequestConfig) : list AnyInterceptor :=
  match interceptors config with
  | Some ic =>
      match interceptors_response ic with Some d => to_array d | None => [] end
  | None => []
  end ++
  match responseInterceptors config with Some l => l | None => [] end.

(** The [Attach] state in closed form: the instance [i0] with the handlers of
    the declarations [reqs] and [resps] pushed, and, in one-shot mode, the
    indices of the pushed slots as identifiers. *)
Definition grownBy (i0 : AxiosInstance) (isOneTime : bool)
    (reqs resps : list AnyInterceptor) : Attach :=
  {| instance_ :=
       {| Axios.defaults := Axios.defaults i0;
          Axios.interceptors :=
            {| Axios.request :=
                 Axios.request (Axios.interceptors i0)
                 ++ (Some <$> omap normalized reqs);
               Axios.response :=
                 Axios.response (Axios.interceptors i0)
                 ++ (Some <$> omap normalized resps) |} |};
     requestIds :=
       if isOneTime
       then Z.of_nat <$> seq (length (Axios.request (Axios.interceptors i0)))
                             (length (omap normalized reqs))
       else [];
     responseIds :=
       if isOneTime
       then Z.of_nat <$> seq (length (Axios.response (Axios.interceptors i0)))
                             (length (omap normalized resps))
       else [] |}.

(** The instance a call of [request config] leaves in the registry when its
    target was [i]: every slot pushed for the call is there, emptied. *)
Definition afterCall (config : CustomRequestConfig) (i : AxiosInstance)
  : AxiosInstance :=
  {| Axios.defaults := Axios.defaults i;
     Axios.interceptors :=
       {| Axios.request :=
            Axios.request (Axios.interceptors i)
            ++ replicate (length (omap normalized (declaredRequest config))) None;
          Axios.response :=
            Axios.response (Axios.interceptors i)
            ++ replicate (length (omap normalized (declaredResponse config))) None |} |}.

(** ** Calls that overlap *)

(** The module with its calls in flight: the state, and the calls of
    [request] that are suspended at their [await]. *)
Record System : Type := {
  world : World;
  inflight : list Pending
}.

(** What can happen next.  JavaScript runs each of these to its end before
    anything else runs: a [defineRequestConfig] call; a [request] call up to
    its suspension (or to its end, when the lookup fails); the resumption of
    the [k]-th suspended call, whose underlying call has settled. *)
Inductive Action : Type :=
| ActDefine (configs : Configs)
| ActBegin (config : CustomRequestConfig)
| ActSettle (k : nat) (settlement : Error + Axios.Response).

Section Interleaving.
Context (runHandler : Fn → Error → CustomRequestConfig → option Error).

Definition act (a : Action) (s : System) : System :=
  match a with
  | ActDefine configs =>
      {| world := (defineRequestConfig configs (world s)).2;
         inflight := inflight s |}
  | ActBegin config =>
      match request_prepare config (world s) with
      | (Normal p, w) => {| world := w; inflight := inflight s ++ [p] |}
      | (Throw e, w) =>
          {| world := (request_catch runHandler config e w).2;
             inflight := inflight s |}
      end
  | ActSettle k settlement =>
      match inflight s !! k with
      | Some p =>
          {| world := (request_settle runHandler p settlement (world s)).2;
             inflight := delete k (inflight s) |}
      | None => s
      end
  end.

(** The system after a sequence of actions. *)
Definition exec (actions : list Action) (s : System) : System :=
  foldl (λ s a, act a s) s actions.

End Interleaving.

(** Ejecting a list of identifiers from a manager. *)
Definition ejectIds (ids : list InterceptorId) (m : Axios.InterceptorManager)
  : Axios.InterceptorManager :=
  foldl (λ m id, Axios.eject id m) m ids.

(** The request-side identifiers held by the suspended calls that target the
    instance [name], and the response-side ones. *)
Definition heldRequestIds (name : InstanceName) (pool : list Pending)
  : list InterceptorId :=
  concat ((λ p, if decide (resolvedName (pending_config p) = name)
                then pending_requestIds p else []) <$> pool).

Definition heldResponseIds (name : InstanceName) (pool : list Pending)
  : list InterceptorId :=
  concat ((λ p, if decide (resolvedName (pending_config p) = name)
                then pending_responseIds p else []) <$> pool).

(** What every action keeps true of the instance [i] registered under
    [name], given the suspended calls [pool]: it has its defaults, the
    identifiers held by the suspended calls point inside its managers, and
    once those identifiers are ejected its chains are [onRequest] and
    [onResponse]. *)
Record Held (name : InstanceName) (pool : list Pending)
    (defaults : CustomRequestConfig) (onRequest onResponse : list Axios.Handler)
    (i : AxiosInstance) : Prop := {
  held_defaults : Axios.defaults i = defaults;
  held_request :
    Axios.chain (ejectIds (heldRequestIds name pool)
                   (Axios.request (Axios.interceptors i))) = onRequest;
  held_response :
    Axios.chain (ejectIds (heldResponseIds name pool)
                   (Axios.response (Axios.interceptors i))) = onResponse;
  held_request_bound :
    Forall (λ id, (0 ≤ id < Z.of_nat (length (Axios.request (Axios.interceptors i))))%Z)
           (heldRequestIds name pool);
  held_response_bound :
    Forall (λ id, (0 ≤ id < Z.of_nat (length (Axios.response (Axios.interceptors i))))%Z)
           (heldResponseIds name pool)
}.

Definition Settled (name : InstanceName) (defaults : CustomRequestConfig)
    (onRequest onResponse : list Axios.Handler) (s : System) : Prop :=
  ∃ i, instanceMap (world s) !! name = Some i ∧
       Held name (inflight s) defaults onRequest onResponse i.

(** ** Concrete inputs *)

(** [{}] *)
Definition bareConfig : CustomRequestConfig :=
  {| url := None; method := None; instanceName := None;
     skipErrorHandler := None; withFullResponse := None; errorConfig := None;
     interceptors := None; requestInterceptors := None;
     responseInterceptors := None |}.

(** A named instance with permanent interceptors on both sides, an
    instance-level error handler, and [skipErrorHandler] and
    [withFullResponse] set in its defaults. *)
Definition apiConfig : CustomRequestConfig :=
  {| url := None; method := None; instanceName := Some (Name "api");
     skipErrorHandler := Some true; withFullResponse := Some true;
     errorConfig := Some {| errorHandler := Some 20; errorThrower := None |};
     interceptors :=
       Some {| interceptors_request :=
                 Some (Single {| onConfig := Present (Some 10); onError := Absent |});
               interceptors_response :=
                 Some (Several [ITuple [11; 12]; IFunction 13]) |};
     requestInterceptors := None; responseInterceptors := None |}.

(** A call to the instance [api] with one-shot interceptors of every shape
    and no handler of its own. *)
Definition callConfig : CustomRequestConfig :=
  {| url := Some "/a"; method := Some "GET"; instanceName := Some (Name "api");
     skipErrorHandler := None; withFullResponse := None; errorConfig := None;
     interceptors := None;
     requestInterceptors :=
       Some [IFunction 1;
             IObject {| onConfig := Absent; onError := Present (Some 3) |};
             IObject {| onConfig := Present None; onError := Present (Some 3) |}];
     responseInterceptors := Some [ITuple [4; 5]] |}.

(** A call to the default instance with a call-level error handler. *)
Definition handledConfig : CustomRequestConfig :=
  {| url := Some "/a"; method := Some "GET"; instanceName := None;
     skipErrorHandler := None; withFullResponse := None;
     errorConfig := Some {| errorHandler := Some 7; errorThrower := None |};
     interceptors := None; requestInterceptors := None;
     responseInterceptors := None |}.

(** The same call with [skipErrorHandler: true]. *)
Definition skippingConfig : CustomRequestConfig :=
  {| url := Some "/a"; method := Some "GET"; instanceName := None;
     skipErrorHandler := Some true; withFullResponse := None;
     errorConfig := Some {| errorHandler := Some 7; errorThrower := None |};
     interceptors := None; requestInterceptors := None;
     responseInterceptors := None |}.

(** The registry after [defineRequestConfig({})]. *)
Definition defaultWorld : World :=
  (defineRequestConfig (OneConfig bareConfig) emptyWorld).2.

(** The registry after [defineRequestConfig(apiConfig)]. *)
Definition apiWorld : World :=
  (defineRequestConfig (OneConfig apiConfig) emptyWorld).2.

Definition okResponse : Axios.Response :=
  {| Axios.status := 200; Axios.headers := [("content-type", "text/plain")];
     Axios.data := "ok" |}.

(** An underlying call that always rejects, and one that always resolves. *)
Definition rejecting (_ : AxiosInstance) (_ : CustomRequestConfig)
  : Error + Axios.Response := inl (Foreign 9).

Definition resolving (_ : AxiosInstance) (_ : CustomRequestConfig)
  : Error + Axios.Response := inr okResponse.

(** Handlers that all return, and handlers that all throw. *)
Definition returning (_ : Fn) (_ : Error) (_ : CustomRequestConfig)
  : option Error := None.

Definition throwing (_ : Fn) (_ : Error) (_ : CustomRequestConfig)
  : option Error := Some (Foreign 2).

(** A second named instance, without interceptors or handlers. *)
Definition shopConfig : CustomRequestConfig :=
  {| url := None; method := None; instanceName := Some (Name "shop");
     skipErrorHandler := None; withFullResponse := None; errorConfig := None;
     interceptors := None; requestInterceptors := None;
     responseInterceptors := None |}.

(** A configuration whose [instanceName] is the empty string. *)
Definition blankNameConfig : CustomRequestConfig :=
  {| url := None; method := None; instanceName := Some (Name EmptyString);
     skipErrorHandler := None; withFullResponse := None; errorConfig := None;
     interceptors := None; requestInterceptors := None;
     responseInterceptors := None |}.

(** An underlying call that rejects only on an instance whose request chain
    holds exactly three interceptors. *)
Definition rejectingOnThree (inst : AxiosInstance) (_ : CustomRequestConfig)
  : Error + Axios.Response :=
  if length (Axios.chain (Axios.request (Axios.interceptors inst))) =? 3
  then inl (Foreign 9) else inr okResponse.

(** The call [request(callConfig)] suspended on the freshly registered
    instance [api]: it holds the identifiers of its two request-side slots
    and of its response-side slot. *)
Definition suspendedCall : Pending :=
  {| pending_config := callConfig;
     pending_merged := mergeConfig callConfig (Some apiConfig);
     pending_requestIds := [1; 2]%Z;
     pending_responseIds := [2]%Z |}.

(** * Properties *)

(** ** The interceptor manager *)

Section ManagerFacts.
Implicit Types m news : Axios.InterceptorManager.

Lemma chain_app m1 m2 : Axios.chain (m1 ++ m2) = Axios.chain m1 ++ Axios.chain m2.
Proof. apply omap_app. Qed.

Lemma chain_ejected_slots n : Axios.chain (replicate n None) = [].
Proof. induction n as [|n IH]; [done|]. exact IH. Qed.

Lemma use_id_valid f r m : (Axios.use f r m).1 ≠ INVALID_INTERCEPTOR_ID.
Proof. unfold Axios.use, INVALID_INTERCEPTOR_ID. simpl. lia. Qed.

Lemma use_chain f r m :
  Axios.chain (Axios.use f r m).2 =
  Axios.chain m ++ [{| Axios.fulfilled := f; Axios.rejected := r |}].
Proof. unfold Axios.use. simpl. by rewrite chain_app. Qed.

(** Ejecting a slot that was just pushed empties it and nothing else. *)
Lemma eject_middle m x news :
  Axios.eject (Z.of_nat (length m)) (m ++ x :: news) = m ++ None :: news.
Proof.
  unfold Axios.eject.
  destruct (Z.ltb_spec (Z.of_nat (length m)) 0) as [Hneg|_]; [lia|].
  rewrite Nat2Z.id, list_lookup_middle by done.
  destruct x as [h|]; [|done].
  replace (length m) with (length m + 0) at 1 by lia.
  by rewrite insert_app_r.
Qed.

(** An out-of-range or negative identifier ejects nothing. *)
Lemma eject_invalid m : Axios.eject INVALID_INTERCEPTOR_ID m = m.
Proof. done. Qed.

(** Ejecting the identifiers of a block of pushed slots, in order, clears
    exactly that block. *)
Lemma eject_block news : ∀ m,
  foldl (λ m' id, Axios.eject id m') (m ++ news)
        (Z.of_nat <$> seq (length m) (length news))
  = m ++ replicate (length news) None.
Proof.
  induction news as [|x news IH]; intros m; [done|].
  cbn [length seq fmap list_fmap foldl].
  rewrite eject_middle.
  specialize (IH (m ++ [None])).
  rewrite length_app, <- app_assoc in IH. cbn [length app] in IH.
  replace (length m + 1) with (S (length m)) in IH by lia.
  rewrite IH, <- app_assoc. done.
Qed.

Lemma eject_block_chain m news :
  Axios.chain (foldl (λ m' id, Axios.eject id m') (m ++ news)
                     (Z.of_nat <$> seq (length m) (length news)))
  = Axios.chain m.
Proof.
  rewrite eject_block, chain_app, chain_ejected_slots. apply app_nil_r.
Qed.

End ManagerFacts.

(** ** The normalizer and the bulk attach helper *)

(** Either nothing is registered and the sentinel is returned, or exactly one
    handler is pushed on the request manager. *)
Lemma handleRequestInterceptor_cases instance x :
  handleRequestInterceptor instance x = (INVALID_INTERCEPTOR_ID, instance) ∨
  ∃ f r, handleRequestInterceptor instance x = Axios.use_request f r instance.
Proof.
  destruct x as [f|elems|[c e]]; simpl; repeat case_match; eauto.
Qed.

Lemma handleResponseInterceptor_cases instance x :
  handleResponseInterceptor instance x = (INVALID_INTERCEPTOR_ID, instance) ∨
  ∃ f r, handleResponseInterceptor instance x = Axios.use_response f r instance.
Proof.
  destruct x as [f|elems|[c e]]; simpl; repeat case_match; eauto.
Qed.

Lemma tracked_init i0 :
  Tracked i0 {| instance_ := i0; requestIds := []; responseIds := [] |}.
Proof.
  split; simpl; [done| |]; exists []; by rewrite app_nil_r.
Qed.

Lemma seq_push n k : seq n (S k) = seq n k ++ [n + k].
Proof. by rewrite seq_S. Qed.

Lemma attachRequest_tracked i0 st x :
  Tracked i0 st → Tracked i0 (attachRequest true st x).
Proof.
  intros [Hd (nr & Hr & Hir) Hresp]. unfold attachRequest.
  destruct (handleRequestInterceptor_cases (instance_ st) x) as [->|(f & r & ->)].
  - simpl. split; simpl; eauto.
  - unfold Axios.use_request, Axios.use. simpl.
    destruct (Z.eqb_spec (Z.of_nat (length (Axios.request
                (Axios.interceptors (instance_ st))))) INVALID_INTERCEPTOR_ID)
      as [Hbad|_]; [unfold INVALID_INTERCEPTOR_ID in Hbad; lia|].
    simpl. split; simpl; [done| |done].
    eexists (nr ++ [_]). rewrite Hr, <- app_assoc. split; [done|].
    rewrite Hir, !length_app. simpl.
    replace (length nr + 1) with (S (length nr)) by lia.
    by rewrite seq_push, fmap_app.
Qed.

Lemma attachResponse_tracked i0 st x :
  Tracked i0 st → Tracked i0 (attachResponse true st x).
Proof.
  intros [Hd Hreq (nr & Hr & Hir)]. unfold attachResponse.
  destruct (handleResponseInterceptor_cases (instance_ st) x) as [->|(f & r & ->)].
  - simpl. split; simpl; eauto.
  - unfold Axios.use_response, Axios.use. simpl.
    destruct (Z.eqb_spec (Z.of_nat (length (Axios.response
                (Axios.interceptors (instance_ st))))) INVALID_INTERCEPTOR_ID)
      as [Hbad|_]; [unfold INVALID_INTERCEPTOR_ID in Hbad; lia|].
    simpl. split; simpl; [done|done|].
    eexists (nr ++ [_]). rewrite Hr, <- app_assoc. split; [done|].
    rewrite Hir, !length_app. simpl.
    replace (length nr + 1) with (S (length nr)) by lia.
    by rewrite seq_push, fmap_app.
Qed.

Lemma foldl_tracked i0 (step : Attach → AnyInterceptor → Attach) l :
  (∀ st x, Tracked i0 st → Tracked i0 (step st x)) →
  ∀ st, Tracked i0 st → Tracked i0 (foldl step st l).
Proof.
  intros Hstep. induction l as [|x l IH]; intros st Hst; simpl; auto.
Qed.

Lemma handleRequestInterceptor_defaults instance x :
  Axios.defaults (handleRequestInterceptor instance x).2 = Axios.defaults instance.
Proof.
  by destruct (handleRequestInterceptor_cases instance x) as [->|(f & r & ->)].
Qed.

Lemma handleResponseInterceptor_defaults instance x :
  Axios.defaults (handleResponseInterceptor instance x).2 = Axios.defaults instance.
Proof.
  by destruct (handleResponseInterceptor_cases instance x) as [->|(f & r & ->)].
Qed.

Lemma foldl_attach_defaults (step : Attach → AnyInterceptor → Attach) l :
  (∀ st x, Axios.defaults (instance_ (step st x)) = Axios.defaults (instance_ st)) →
  ∀ st, Axios.defaults (instance_ (foldl step st l)) = Axios.defaults (instance_ st).
Proof.
  intros Hstep. induction l as [|x l IH]; intros st; [done|].
  simpl. by rewrite IH, Hstep.
Qed.

(** Attaching interceptors, permanent or one-shot, leaves the defaults of the
    instance alone. *)
Lemma addInterceptorsToInstance_defaults i config isOneTime :
  Axios.defaults (instance_ (addInterceptorsToInstance i config isOneTime))
  = Axios.defaults i.
Proof.
  assert (∀ st x, Axios.defaults (instance_ (attachRequest isOneTime st x))
                  = Axios.defaults (instance_ st)) as Hreq.
  { intros st x. unfold attachRequest.
    pose proof (handleRequestInterceptor_defaults (instance_ st) x) as Hd.
    by destruct (handleRequestInterceptor _ _). }
  assert (∀ st x, Axios.defaults (instance_ (attachResponse isOneTime st x))
                  = Axios.defaults (instance_ st)) as Hresp.
  { intros st x. unfold attachResponse.
    pose proof (handleResponseInterceptor_defaults (instance_ st) x) as Hd.
    by destruct (handleResponseInterceptor _ _). }
  unfold addInterceptorsToInstance.
  repeat case_match; rewrite ?foldl_attach_defaults; done.
Qed.

(** The defaults of a registered instance are the configuration it was
    registered with. *)
Lemma registered_defaults config : Axios.defaults (registered config) = config.
Proof. unfold registered. by rewrite addInterceptorsToInstance_defaults. Qed.

(** The one-shot attach collects the identifier of every slot it pushes. *)
Lemma addInterceptorsToInstance_tracked i0 config :
  Tracked i0 (addInterceptorsToInstance i0 config true).
Proof.
  unfold addInterceptorsToInstance.
  repeat case_match;
    repeat (apply foldl_tracked;
            [intros; first [by apply attachRequest_tracked
                           |by apply attachResponse_tracked]|]);
    apply tracked_init.
Qed.

Lemma foldl_eject_request ids : ∀ i : AxiosInstance,
  foldl (λ i id, Axios.eject_request id i) i ids =
  {| Axios.defaults := Axios.defaults i;
     Axios.interceptors :=
       {| Axios.request :=
            foldl (λ m id, Axios.eject id m) (Axios.request (Axios.interceptors i)) ids;
          Axios.response := Axios.response (Axios.interceptors i) |} |}.
Proof.
  induction ids as [|id ids IH]; intros [d [rq rs]]; [done|].
  simpl. by rewrite IH.
Qed.

Lemma foldl_eject_response ids : ∀ i : AxiosInstance,
  foldl (λ i id, Axios.eject_response id i) i ids =
  {| Axios.defaults := Axios.defaults i;
     Axios.interceptors :=
       {| Axios.request := Axios.request (Axios.interceptors i);
          Axios.response :=
            foldl (λ m id, Axios.eject id m) (Axios.response (Axios.interceptors i)) ids |} |}.
Proof.
  induction ids as [|id ids IH]; intros [d [rq rs]]; [done|].
  simpl. by rewrite IH.
Qed.

(** After the cleanup the instance has its defaults and, on both sides, the
    chain it had before the attach. *)
Lemma ejectAll_tracked i0 st :
  Tracked i0 st →
  Axios.defaults (ejectAll st) = Axios.defaults i0 ∧
  Axios.chain (Axios.request (Axios.interceptors (ejectAll st)))
    = Axios.chain (Axios.request (Axios.interceptors i0)) ∧
  Axios.chain (Axios.response (Axios.interceptors (ejectAll st)))
    = Axios.chain (Axios.response (Axios.interceptors i0)).
Proof.
  intros [Hd (nr & Hr & Hir) (ns & Hs & His)].
  unfold ejectAll. rewrite foldl_eject_response, foldl_eject_request. simpl.
  rewrite Hd, Hr, Hir, Hs, His, !eject_block_chain. done.
Qed.

(** ** The registry and the dispatcher, as equations *)

(** Searching the entries for a key is a lookup. *)
Lemma Map_find_entry_lookup k w :
  Map_find_entry k w = (Normal (instanceMap w !! k), w).
Proof.
  unfold Map_find_entry. f_equal. f_equal.
  destruct (list_find _ _) as [[j [k' v]]|] eqn:Hfind; simpl.
  - apply list_find_Some in Hfind as (Hj & Hk & _). simpl in Hk. subst k'.
    apply list_elem_of_lookup_2, elem_of_map_to_list in Hj. by rewrite Hj.
  - apply list_find_None in Hfind.
    destruct (instanceMap w !! k) as [v|] eqn:Hk; [|done].
    apply elem_of_map_to_list in Hk.
    rewrite Forall_forall in Hfind. by apply Hfind in Hk.
Qed.

Lemma alter_present (m : gmap InstanceName AxiosInstance) k i f :
  m !! k = Some i → alter f k m = <[k := f i]> m.
Proof.
  intros Hk. apply map_eq. intros j.
  destruct (decide (k = j)) as [->|Hne].
  - by rewrite lookup_alter_eq, lookup_insert_eq, Hk.
  - by rewrite lookup_alter_ne, lookup_insert_ne.
Qed.

Lemma forEach_eject (eject : InterceptorId → AxiosInstance → AxiosInstance)
    name side ids : ∀ w i,
  instanceMap w !! name = Some i →
  forEach (λ id, bind (mutate name (eject id))
                      (λ _, emit (Ejected name side id))) ids w
  = (Normal tt,
     {| instanceMap := <[name := foldl (λ i id, eject id i) i ids]> (instanceMap w);
        events := events w ++ (Ejected name side <$> ids) |}).
Proof.
  induction ids as [|id ids IH]; intros [m evs] i Hi; simpl in *.
  - unfold ret. by rewrite insert_id, app_nil_r.
  - unfold bind at 1. unfold bind at 1. unfold mutate, emit. simpl.
    erewrite IH; simpl.
    + rewrite (alter_present m name i) by done.
      by rewrite insert_insert_eq, <- app_assoc.
    + rewrite (alter_present m name i) by done. apply lookup_insert_eq.
Qed.

Section DispatcherFacts.
Context (send : AxiosInstance → CustomRequestConfig → Error + Axios.Response).
Context (runHandler : Fn → Error → CustomRequestConfig → option Error).

(** The lookup fails: the [try] block throws before touching anything. *)
Lemma request_try_not_found config w :
  instanceMap w !! resolvedName config = None →
  request_try send config w = (Throw (InstanceNotFound (resolvedName config)), w).
Proof.
  intros Hnone. unfold request_try, getRequestInstance, bind, Map_get.
  simpl. fold (resolvedName config). by rewrite Hnone.
Qed.

(** The lookup succeeds: attach, call, cleanup, and the completion is the
    settlement of the underlying call. *)
Lemma request_try_found config w i :
  instanceMap w !! resolvedName config = Some i →
  request_try send config w =
  (match send (instance_ (oneShot config i))
              (mergeConfig config (Some (Axios.defaults i))) with
   | inl e => Throw e
   | inr response =>
       Normal (if truthy (withFullResponse (mergeConfig config (Some (Axios.defaults i))))
               then Envelope response
               else Payload (Axios.data response))
   end, dispatched config i w).
Proof.
  intros Hi. unfold request_try, getRequestInstance.
  fold (resolvedName config).
  unfold bind at 1. unfold bind at 1. unfold Map_get. simpl. rewrite Hi.
  unfold ret at 1. unfold bind at 1. rewrite Map_find_entry_lookup, Hi. simpl.
  fold (oneShot config i).
  unfold bind at 1. unfold Map_set at 1. simpl.
  unfold try_finally.
  set (merged := mergeConfig config (Some (Axios.defaults i))).
  set (w1 := {| instanceMap := _; events := events w |}).
  assert (instance_request send (resolvedName config) (instance_ (oneShot config i)) merged w1
          = (match send (instance_ (oneShot config i)) merged with
             | inl e => Throw e
             | inr r => Normal r
             end,
             {| instanceMap := instanceMap w1;
                events := events w ++ [Sent (resolvedName config) merged] |})) as Hsend.
  { unfold instance_request, bind, emit. simpl.
    by destruct (send _ _). }
  unfold bind at 1. rewrite Hsend. clear Hsend.
  set (w2 := {| instanceMap := instanceMap w1; events := _ |}).
  assert (bind
            (forEach (λ id, bind (mutate (resolvedName config) (Axios.eject_request id))
                                 (λ _, emit (Ejected (resolvedName config) RequestSide id)))
                     (requestIds (oneShot config i)))
            (λ _, forEach (λ id, bind (mutate (resolvedName config) (Axios.eject_response id))
                                 (λ _, emit (Ejected (resolvedName config) ResponseSide id)))
                     (responseIds (oneShot config i))) w2
          = (Normal tt, dispatched config i w)) as Hclean.
  { unfold bind at 1.
    rewrite (forEach_eject Axios.eject_request _ _ _ w2 (instance_ (oneShot config i)))
      by apply lookup_insert_eq.
    erewrite forEach_eject by apply lookup_insert_eq.
    unfold dispatched, dispatchEvents, ejectAll. simpl.
    rewrite !insert_insert_eq. f_equal. f_equal.
    by rewrite <- !app_assoc. }
  destruct (send _ _) as [e|response]; unfold ret; rewrite Hclean; done.
Qed.

End DispatcherFacts.

(** ** The registry *)

(** A name that is registered: the duplicate error, whatever the name.  The
    branch that would warn and return needs a registered name in an empty
    map, so it is never taken. *)
Lemma defineOne_registered config w :
  is_Some (instanceMap w !! resolvedName config) →
  defineOne config w = (Throw (InstanceExists (resolvedName config)), w).
Proof.
  intros Hsome. unfold defineOne. fold (resolvedName config).
  unfold bind, Map_has, Map_size. simpl.
  rewrite bool_decide_eq_true_2 by done.
  apply map_size_ne_0_lookup_2, Nat.eqb_neq in Hsome as ->.
  by rewrite andb_false_r.
Qed.

(** A name that is not registered. *)
Lemma defineOne_fresh config w :
  instanceMap w !! resolvedName config = None →
  defineOne config w =
  if negb (truthy_name (instanceName config))
     && bool_decide (is_Some (instanceMap w !! DEFAULT_INSTANCE_NAME))
  then (Throw NameRequired, w)
  else (Normal tt,
        {| instanceMap := <[resolvedName config := registered config]> (instanceMap w);
           events := events w ++
             [Logged ("Successfully defined request instance: "
                      +:+ String_ (resolvedName config))] |}).
Proof.
  intros Hnone. unfold defineOne. fold (resolvedName config).
  unfold bind, Map_has. simpl.
  rewrite bool_decide_eq_false_2 by (rewrite Hnone; by intros [? ?]).
  by destruct (negb _ && _).
Qed.

(** [defineRequestConfig] never reaches its [console.warn]. *)
Lemma defineOne_never_warns config w :
  warnings (events (defineOne config w).2) = warnings (events w).
Proof.
  destruct (instanceMap w !! resolvedName config) as [i|] eqn:Hk.
  - by rewrite defineOne_registered by (by rewrite Hk).
  - rewrite defineOne_fresh by done.
    destruct (negb _ && _); [done|]. simpl.
    unfold warnings. rewrite omap_app. simpl. apply app_nil_r.
Qed.

(** The name-required error is raised for one input only: a configuration
    whose [instanceName] is the empty string, not yet registered, while the
    default instance is. *)
Lemma defineOne_name_required config w :
  (defineOne config w).1 = Throw NameRequired ↔
  instanceName config = Some (Name EmptyString) ∧
  instanceMap w !! Name EmptyString = None ∧
  is_Some (instanceMap w !! DEFAULT_INSTANCE_NAME).
Proof.
  destruct (instanceMap w !! resolvedName config) as [i|] eqn:Hk.
  - rewrite defineOne_registered by (by rewrite Hk). simpl. split; [done|].
    intros (Hname & Hnone & _). unfold resolvedName in Hk.
    rewrite Hname in Hk. simpl in Hk. congruence.
  - rewrite defineOne_fresh by done.
    destruct (bool_decide_reflect (is_Some (instanceMap w !! DEFAULT_INSTANCE_NAME)))
      as [Hdef|Hdef].
    + destruct (instanceName config) as [[k|s]|] eqn:Hname; simpl.
      * split; [done|]. by intros (? & _).
      * destruct (String.eqb_spec s EmptyString) as [->|Hs]; simpl.
        -- unfold resolvedName in Hk. rewrite Hname in Hk. by split.
        -- split; [done|]. intros (? & _). congruence.
      * unfold resolvedName in Hk. rewrite Hname in Hk. simpl in Hk.
        rewrite Hk in Hdef. by destruct Hdef.
    + rewrite andb_false_r. simpl. split; [done|]. by intros (_ & _ & ?).
Qed.

(** Registration never touches an entry that already exists. *)
Lemma defineOne_keeps config w name i :
  instanceMap w !! name = Some i →
  instanceMap (defineOne config w).2 !! name = Some i.
Proof.
  intros Hi.
  destruct (instanceMap w !! resolvedName config) as [j|] eqn:Hk.
  - by rewrite defineOne_registered by (by rewrite Hk).
  - rewrite defineOne_fresh by done.
    destruct (negb _ && _); [done|]. simpl.
    rewrite lookup_insert_ne; [done|]. intros <-. congruence.
Qed.

Lemma forEach_defineOne_keeps configs : ∀ w name i,
  instanceMap w !! name = Some i →
  instanceMap (forEach defineOne configs w).2 !! name = Some i.
Proof.
  induction configs as [|c configs IH]; intros w name i Hi; [done|].
  simpl. unfold bind.
  pose proof (defineOne_keeps c w name i Hi) as Hc.
  destruct (defineOne c w) as [[[]|e] w']; simpl in *; auto.
Qed.

Lemma defineRequestConfig_keeps configs w name i :
  instanceMap w !! name = Some i →
  instanceMap (defineRequestConfig configs w).2 !! name = Some i.
Proof. apply forEach_defineOne_keeps. Qed.

(** A registration that completes has stored [registered config]. *)
Lemma defineOne_stores config w w' :
  defineOne config w = (Normal tt, w') →
  instanceMap w' !! resolvedName config = Some (registered config).
Proof.
  destruct (instanceMap w !! resolvedName config) as [i|] eqn:Hk.
  - by rewrite defineOne_registered by (by rewrite Hk).
  - rewrite defineOne_fresh by done.
    destruct (negb _ && _); [done|].
    intros [= <-]. simpl. apply lookup_insert_eq.
Qed.

Lemma forEach_defineOne_stores configs : ∀ w w' config,
  forEach defineOne configs w = (Normal tt, w') →
  config ∈ configs →
  instanceMap w' !! resolvedName config = Some (registered config).
Proof.
  induction configs as [|c configs IH]; intros w w' config Hrun Hin.
  - by apply elem_of_nil in Hin.
  - simpl in Hrun. unfold bind in Hrun.
    destruct (defineOne c w) as [[[]|e] w1] eqn:Hc; [|done].
    apply elem_of_cons in Hin as [->|Hin]; [|by eapply IH].
    apply defineOne_stores in Hc.
    pose proof (forEach_defineOne_keeps configs w1 _ _ Hc) as Hkeep.
    by rewrite Hrun in Hkeep.
Qed.

(** Every configuration of a [defineRequestConfig] call that completes is
    registered, with its permanent interceptors attached. *)
Lemma defineRequestConfig_stores configs config w w' :
  defineRequestConfig configs w = (Normal tt, w') →
  config ∈ configsArray configs →
  instanceMap w' !! resolvedName config = Some (registered config).
Proof. apply forEach_defineOne_stores. Qed.

(** ** The dispatcher *)

Lemma handlerCalls_app evs1 evs2 :
  handlerCalls (evs1 ++ evs2) = handlerCalls evs1 ++ handlerCalls evs2.
Proof. apply omap_app. Qed.

Lemma ejections_app evs1 evs2 :
  ejections (evs1 ++ evs2) = ejections evs1 ++ ejections evs2.
Proof. apply omap_app. Qed.

Lemma handlerCalls_ejected name side ids :
  handlerCalls (Ejected name side <$> ids) = [].
Proof. induction ids as [|id ids IH]; [done|]. exact IH. Qed.

Lemma ejections_ejected name side ids :
  ejections (Ejected name side <$> ids) = (λ id, (name, side, id)) <$> ids.
Proof.
  induction ids as [|id ids IH]; [done|].
  cbn [fmap list_fmap]. unfold ejections in *. cbn [omap list_omap].
  by rewrite IH.
Qed.

(** The [try] block calls no error handler. *)
Lemma handlerCalls_dispatchEvents config i :
  handlerCalls (dispatchEvents config i) = [].
Proof.
  unfold dispatchEvents.
  change (handlerCalls (Sent ?n ?c :: ?l)) with (handlerCalls l).
  by rewrite handlerCalls_app, !handlerCalls_ejected.
Qed.

(** The ejections of the [try] block: the request-side identifiers in the
    order collected, then the response-side ones. *)
Lemma ejections_dispatchEvents config i :
  ejections (dispatchEvents config i) =
  ((λ id, (resolvedName config, RequestSide, id)) <$> requestIds (oneShot config i))
  ++ ((λ id, (resolvedName config, ResponseSide, id)) <$> responseIds (oneShot config i)).
Proof.
  unfold dispatchEvents.
  change (ejections (Sent ?n ?c :: ?l)) with (ejections l).
  by rewrite ejections_app, !ejections_ejected.
Qed.

Lemma oneShot_tracked config i : Tracked i (oneShot config i).
Proof. apply addInterceptorsToInstance_tracked. Qed.

(** After the [try] block the target instance still has the defaults it was
    created with. *)
Lemma dispatched_defaults config i w :
  defaults_of (instanceMap (dispatched config i w) !! resolvedName config)
  = Some (Axios.defaults i).
Proof.
  unfold dispatched. simpl. rewrite lookup_insert_eq. simpl.
  by destruct (ejectAll_tracked i _ (oneShot_tracked config i)) as (-> & _).
Qed.

Section PolicyFacts.
Context (send : AxiosInstance → CustomRequestConfig → Error + Axios.Response).
Context (runHandler : Fn → Error → CustomRequestConfig → option Error).

(** The [catch] block as an equation. *)
Lemma request_catch_eq config e w :
  request_catch runHandler config e w =
  if truthy (skipErrorHandler config) then (Throw e, w)
  else
    match selectedHandler config
            (defaults_of (instanceMap w !! resolvedName config)) with
    | Some (l, h) =>
        let merged :=
          mergeConfig config (defaults_of (instanceMap w !! resolvedName config)) in
        (Throw (default e (runHandler h e merged)),
         {| instanceMap := instanceMap w;
            events := events w ++ [Handled l h e merged] |})
    | None => (Throw e, w)
    end.
Proof.
  unfold request_catch. destruct (truthy (skipErrorHandler config)); [done|].
  fold (resolvedName config). unfold bind at 1.
  rewrite Map_find_entry_lookup. unfold selectedHandler.
  destruct (errorHandler_of (Some config)) as [h|].
  - unfold bind, callErrorHandler, bind, emit, throw, ret. simpl.
    by destruct (runHandler h e _).
  - destruct (errorHandler_of (defaults_of _)) as [h|].
    + unfold bind, callErrorHandler, bind, emit, throw, ret. simpl.
      by destruct (runHandler h e _).
    + done.
Qed.

(** The [catch] block leaves the registry alone. *)
Lemma request_catch_instanceMap config e w :
  instanceMap (request_catch runHandler config e w).2 = instanceMap w.
Proof.
  rewrite request_catch_eq. destruct (truthy _); [done|].
  by destruct (selectedHandler _ _) as [[l h]|].
Qed.

(** A failing [try] block hands its error and state to the [catch] block. *)
Lemma request_failing config w e w2 :
  request_try send config w = (Throw e, w2) →
  request send runHandler config w = request_catch runHandler config e w2.
Proof. intros Htry. unfold request, try_catch. by rewrite Htry. Qed.

Lemma request_succeeding config w v w2 :
  request_try send config w = (Normal v, w2) →
  request send runHandler config w = (Normal v, w2).
Proof. intros Htry. unfold request, try_catch. by rewrite Htry. Qed.

(** What a failing [try] block leaves behind: no handler call, and the
    defaults of the target (if any) as they were. *)
Lemma request_try_failing config w e w2 :
  request_try send config w = (Throw e, w2) →
  handlerCalls (events w2) = handlerCalls (events w) ∧
  defaults_of (instanceMap w2 !! resolvedName config)
  = defaults_of (instanceMap w !! resolvedName config).
Proof.
  destruct (instanceMap w !! resolvedName config) as [i|] eqn:Hk.
  - rewrite (request_try_found send config w i Hk). intros [= _ <-]. split.
    + unfold dispatched. simpl.
      by rewrite handlerCalls_app, handlerCalls_dispatchEvents, app_nil_r.
    + apply dispatched_defaults.
  - rewrite (request_try_not_found send config w Hk). intros [= _ <-].
    by rewrite Hk.
Qed.

(** One call keeps every registered instance registered, with its defaults
    and both of its chains. *)
Lemma request_keeps config w name i :
  instanceMap w !! name = Some i →
  ∃ i', instanceMap (request send runHandler config w).2 !! name = Some i' ∧
        Axios.defaults i' = Axios.defaults i ∧
        Axios.chain (Axios.request (Axios.interceptors i'))
          = Axios.chain (Axios.request (Axios.interceptors i)) ∧
        Axios.chain (Axios.response (Axios.interceptors i'))
          = Axios.chain (Axios.response (Axios.interceptors i)).
Proof.
  intros Hi.
  assert (∃ i', instanceMap (request_try send config w).2 !! name = Some i' ∧
        Axios.defaults i' = Axios.defaults i ∧
        Axios.chain (Axios.request (Axios.interceptors i'))
          = Axios.chain (Axios.request (Axios.interceptors i)) ∧
        Axios.chain (Axios.response (Axios.interceptors i'))
          = Axios.chain (Axios.response (Axios.interceptors i))) as Htry.
  { destruct (instanceMap w !! resolvedName config) as [j|] eqn:Hk.
    - rewrite (request_try_found send config w j Hk). simpl.
      destruct (decide (resolvedName config = name)) as [Heq|Hne].
      + rewrite Heq in *. rewrite lookup_insert_eq.
        assert (j = i) as -> by congruence.
        eexists. split; [done|].
        apply ejectAll_tracked, oneShot_tracked.
      + rewrite lookup_insert_ne by done. eauto.
    - rewrite (request_try_not_found send config w Hk). simpl. eauto. }
  destruct (request_try send config w) as [[v|e] w2] eqn:Hrun.
  - by rewrite (request_succeeding _ _ _ _ Hrun).
  - rewrite (request_failing _ _ _ _ Hrun), request_catch_instanceMap. exact Htry.
Qed.

(** The same over any sequence of calls of the public interface. *)
Lemma run_keeps calls : ∀ w name i,
  instanceMap w !! name = Some i →
  ∃ i', instanceMap (run send runHandler calls w) !! name = Some i' ∧
        Axios.defaults i' = Axios.defaults i ∧
        Axios.chain (Axios.request (Axios.interceptors i'))
          = Axios.chain (Axios.request (Axios.interceptors i)) ∧
        Axios.chain (Axios.response (Axios.interceptors i'))
          = Axios.chain (Axios.response (Axios.interceptors i)).
Proof.
  induction calls as [|c calls IH]; intros w name i Hi; [by exists i|].
  simpl. destruct c as [configs|config]; simpl.
  - apply IH. by apply defineRequestConfig_keeps.
  - destruct (request_keeps config w name i Hi) as (i1 & H1 & Hd1 & Hq1 & Hs1).
    destruct (IH _ name i1 H1) as (i2 & H2 & Hd2 & Hq2 & Hs2).
    exists i2. repeat split; congruence.
Qed.

End PolicyFacts.

(** * The stated properties *)

(** ** Registration *)

(** C8.  When the registry holds an instance under an explicit name, calling
    [defineRequestConfig] with a configuration bearing that name throws the
    duplicate-instance error and leaves the module state (registry and
    trace) exactly as it was. *)
Theorem duplicate_name_is_rejected config w n :
  instanceName config = Some n →
  is_Some (instanceMap w !! n) →
  defineRequestConfig (OneConfig config) w = (Throw (InstanceExists n), w).
Proof.
  intros Hname Hsome. unfold defineRequestConfig. simpl. unfold bind.
  rewrite defineOne_registered; unfold resolvedName; rewrite Hname; done.
Qed.

Lemma duplicate_name_is_rejected_witness :
  instanceName apiConfig = Some (Name "api") ∧
  is_Some (instanceMap apiWorld !! Name "api") ∧
  defineRequestConfig (OneConfig apiConfig) apiWorld
  = (Throw (InstanceExists (Name "api")), apiWorld).
Proof.
  assert (is_Some (instanceMap apiWorld !! Name "api")) as Hsome
    by (vm_compute; eauto).
  split; [reflexivity|]. split; [exact Hsome|].
  apply (duplicate_name_is_rejected apiConfig apiWorld (Name "api"));
    [reflexivity|exact Hsome].
Defined.

(** C3 (what the code does).  Once the default instance is registered,
    [defineRequestConfig] with an unnamed configuration does not warn and
    return: it throws the duplicate-instance error for [Symbol(default)].
    The state is left as it was, so not even the warning is emitted. *)
Theorem repeated_default_definition_throws config w :
  instanceName config = None →
  is_Some (instanceMap w !! DEFAULT_INSTANCE_NAME) →
  defineRequestConfig (OneConfig config) w
  = (Throw (InstanceExists DEFAULT_INSTANCE_NAME), w) ∧
  warnings (events (defineRequestConfig (OneConfig config) w).2)
  = warnings (events w).
Proof.
  intros Hname Hsome.
  assert (defineRequestConfig (OneConfig config) w
          = (Throw (InstanceExists DEFAULT_INSTANCE_NAME), w)) as ->; [|done].
  unfold defineRequestConfig. simpl. unfold bind.
  rewrite defineOne_registered; unfold resolvedName; rewrite Hname; done.
Qed.

Lemma repeated_default_definition_throws_witness :
  instanceName bareConfig = None ∧
  is_Some (instanceMap defaultWorld !! DEFAULT_INSTANCE_NAME) ∧
  defineRequestConfig (OneConfig bareConfig) defaultWorld
  = (Throw (InstanceExists DEFAULT_INSTANCE_NAME), defaultWorld).
Proof.
  assert (is_Some (instanceMap defaultWorld !! DEFAULT_INSTANCE_NAME)) as Hsome
    by (vm_compute; eauto).
  split; [reflexivity|]. split; [exact Hsome|].
  apply (repeated_default_definition_throws bareConfig defaultWorld);
    [reflexivity|exact Hsome].
Defined.

(** C9 (what the code does).  With a default instance registered, an unnamed
    configuration fails with the duplicate-instance error, whose message is
    "Instance Symbol(default) already exists, cannot be defined again", and
    not with the error that asks for an [instanceName]. *)
Theorem unnamed_after_default_gets_duplicate_error config w :
  instanceName config = None →
  is_Some (instanceMap w !! DEFAULT_INSTANCE_NAME) →
  ∃ e, (defineRequestConfig (OneConfig config) w).1 = Throw e ∧
       e ≠ NameRequired ∧
       message e = "Instance Symbol(default) already exists, cannot be defined again".
Proof.
  intros Hname Hsome. exists (InstanceExists DEFAULT_INSTANCE_NAME).
  split; [|done].
  unfold defineRequestConfig. simpl. unfold bind.
  rewrite defineOne_registered; unfold resolvedName; rewrite Hname; done.
Qed.

Lemma unnamed_after_default_gets_duplicate_error_witness :
  instanceName bareConfig = None ∧
  is_Some (instanceMap defaultWorld !! DEFAULT_INSTANCE_NAME) ∧
  ∃ e, (defineRequestConfig (OneConfig bareConfig) defaultWorld).1 = Throw e ∧
       e ≠ NameRequired ∧
       message e = "Instance Symbol(default) already exists, cannot be defined again".
Proof.
  assert (is_Some (instanceMap defaultWorld !! DEFAULT_INSTANCE_NAME)) as Hsome
    by (vm_compute; eauto).
  split; [reflexivity|]. split; [exact Hsome|].
  apply (unnamed_after_default_gets_duplicate_error bareConfig defaultWorld);
    [reflexivity|exact Hsome].
Defined.

(** ** The interceptor normalizer *)

(** What each well-formed shape registers: a bare function one success
    callback; a pair a success and an error callback; a one-element array
    the success callback only; an object whose [onConfig] is a function that
    function with [onError], or with the default rethrow when [onError] is
    missing; an object whose [onConfig] key is present but holds no function
    nothing, the sentinel being returned. *)
Lemma handleRequestInterceptor_shapes instance f g e :
  handleRequestInterceptor instance (IFunction f)
    = Axios.use_request (VFunction f) VUndefined instance ∧
  handleRequestInterceptor instance (ITuple [f; g])
    = Axios.use_request (VFunction f) (VFunction g) instance ∧
  handleRequestInterceptor instance (ITuple [f])
    = Axios.use_request (VFunction f) VUndefined instance ∧
  handleRequestInterceptor instance
      (IObject {| onConfig := Present (Some f); onError := Present (Some g) |})
    = Axios.use_request (VFunction f) (VFunction g) instance ∧
  handleRequestInterceptor instance
      (IObject {| onConfig := Present (Some f); onError := Absent |})
    = Axios.use_request (VFunction f) VRethrow instance ∧
  handleRequestInterceptor instance
      (IObject {| onConfig := Present None; onError := e |})
    = (INVALID_INTERCEPTOR_ID, instance).
Proof. done. Qed.

Lemma handleResponseInterceptor_shapes instance f g e :
  handleResponseInterceptor instance (IFunction f)
    = Axios.use_response (VFunction f) VUndefined instance ∧
  handleResponseInterceptor instance (ITuple [f; g])
    = Axios.use_response (VFunction f) (VFunction g) instance ∧
  handleResponseInterceptor instance (ITuple [f])
    = Axios.use_response (VFunction f) VUndefined instance ∧
  handleResponseInterceptor instance
      (IObject {| onConfig := Present (Some f); onError := Present (Some g) |})
    = Axios.use_response (VFunction f) (VFunction g) instance ∧
  handleResponseInterceptor instance
      (IObject {| onConfig := Present (Some f); onError := Absent |})
    = Axios.use_response (VFunction f) VRethrow instance ∧
  handleResponseInterceptor instance
      (IObject {| onConfig := Present None; onError := e |})
    = (INVALID_INTERCEPTOR_ID, instance).
Proof. done. Qed.

(** The number of callbacks carried by the handler each shape pushes. *)
Lemma callbacks_of_shapes f g :
  Axios.callbacks {| Axios.fulfilled := VFunction f; Axios.rejected := VUndefined |} = 1 ∧
  Axios.callbacks {| Axios.fulfilled := VFunction f; Axios.rejected := VFunction g |} = 2 ∧
  Axios.callbacks {| Axios.fulfilled := VFunction f; Axios.rejected := VRethrow |} = 2.
Proof. done. Qed.

(** C5 (what the code does).  An object declaration that has no [onConfig]
    key fails the object test of the normalizer, is not an array, and so is
    passed to [use] as if it were a function: on either side one handler is
    pushed whose success slot holds the object itself, and a real identifier,
    not the sentinel, is returned. *)
Theorem object_without_onConfig_key_is_registered (instance : AxiosInstance) e :
  let o := {| onConfig := Absent; onError := e |} in
  handleRequestInterceptor instance (IObject o)
    = Axios.use_request (VObject o) VUndefined instance ∧
  handleResponseInterceptor instance (IObject o)
    = Axios.use_response (VObject o) VUndefined instance ∧
  (handleRequestInterceptor instance (IObject o)).1 ≠ INVALID_INTERCEPTOR_ID ∧
  (handleResponseInterceptor instance (IObject o)).1 ≠ INVALID_INTERCEPTOR_ID ∧
  Axios.chain (Axios.request (Axios.interceptors
                 (handleRequestInterceptor instance (IObject o)).2))
    = Axios.chain (Axios.request (Axios.interceptors instance))
      ++ [{| Axios.fulfilled := VObject o; Axios.rejected := VUndefined |}].
Proof.
  intros o. repeat split.
  - simpl. unfold INVALID_INTERCEPTOR_ID. lia.
  - simpl. unfold INVALID_INTERCEPTOR_ID. lia.
  - simpl. by rewrite chain_app.
Qed.

(** ** The dispatcher *)

(** The trace of a call whose target is registered: the [try] block, then at
    most the call of one error handler, which ejects nothing. *)
Lemma request_found_events send runHandler config w i :
  instanceMap w !! resolvedName config = Some i →
  ∃ tail, events (request send runHandler config w).2
          = events w ++ dispatchEvents config i ++ tail ∧
          ejections tail = [].
Proof.
  intros Hi. unfold request, try_catch.
  rewrite (request_try_found send config w i Hi).
  destruct (send _ _) as [e|response].
  - rewrite request_catch_eq. destruct (truthy _).
    + exists []. by rewrite app_nil_r.
    + destruct (selectedHandler _ _) as [[l h]|]; simpl.
      * eexists [_]. by rewrite <- app_assoc.
      * exists []. by rewrite app_nil_r.
  - exists []. by rewrite app_nil_r.
Qed.

(** The call that nothing overlaps.  Register [config0], alone or in an array
    of configurations; let any calls of the public interface follow, each run
    to its end before the next;
    then call [request] with a configuration that targets the same instance.
    Whatever the call's outcome, afterwards both chains of the instance are
    the chains it was given at registration, and the ejections made by the
    call are exactly the identifiers collected by its one-shot attach, the
    request-side ones first, then the response-side ones. *)
Theorem request_restores_permanent_chains send runHandler w0 configs config0 w1 calls config :
  defineRequestConfig configs w0 = (Normal tt, w1) →
  config0 ∈ configsArray configs →
  resolvedName config = resolvedName config0 →
  ∃ i i',
    instanceMap (run send runHandler calls w1) !! resolvedName config = Some i ∧
    instanceMap (request send runHandler config (run send runHandler calls w1)).2
      !! resolvedName config = Some i' ∧
    Axios.chain (Axios.request (Axios.interceptors i'))
      = Axios.chain (Axios.request (Axios.interceptors (registered config0))) ∧
    Axios.chain (Axios.response (Axios.interceptors i'))
      = Axios.chain (Axios.response (Axios.interceptors (registered config0))) ∧
    ejections (events (request send runHandler config (run send runHandler calls w1)).2)
      = ejections (events (run send runHandler calls w1))
        ++ ((λ id, (resolvedName config, RequestSide, id))
              <$> requestIds (oneShot config i))
        ++ ((λ id, (resolvedName config, ResponseSide, id))
              <$> responseIds (oneShot config i)).
Proof.
  intros Hdef Hin Hname.
  apply (defineRequestConfig_stores configs config0) in Hdef; [|exact Hin].
  rewrite <- Hname in Hdef.
  destruct (run_keeps send runHandler calls w1 _ _ Hdef) as (i & Hi & _ & Hq & Hs).
  destruct (request_keeps send runHandler config _ _ i Hi) as (i' & Hi' & _ & Hq' & Hs').
  destruct (request_found_events send runHandler config _ i Hi) as (tail & Hev & Htail).
  exists i, i'. repeat split; [done|done|congruence|congruence|].
  rewrite Hev, !ejections_app, ejections_dispatchEvents, Htail.
  by rewrite app_nil_r.
Qed.

Lemma request_restores_permanent_chains_witness :
  defineRequestConfig (OneConfig apiConfig) emptyWorld = (Normal tt, apiWorld) ∧
  apiConfig ∈ configsArray (OneConfig apiConfig) ∧
  resolvedName callConfig = resolvedName apiConfig ∧
  ∃ i i',
    instanceMap (run rejecting throwing
                   [CallRequest callConfig; CallDefine (OneConfig bareConfig)] apiWorld)
      !! resolvedName callConfig = Some i ∧
    instanceMap (request rejecting throwing callConfig
                   (run rejecting throwing
                      [CallRequest callConfig; CallDefine (OneConfig bareConfig)] apiWorld)).2
      !! resolvedName callConfig = Some i' ∧
    Axios.chain (Axios.request (Axios.interceptors i'))
      = Axios.chain (Axios.request (Axios.interceptors (registered apiConfig))) ∧
    Axios.chain (Axios.response (Axios.interceptors i'))
      = Axios.chain (Axios.response (Axios.interceptors (registered apiConfig))) ∧
    ejections (events (request rejecting throwing callConfig
                   (run rejecting throwing
                      [CallRequest callConfig; CallDefine (OneConfig bareConfig)] apiWorld)).2)
      = ejections (events (run rejecting throwing
                      [CallRequest callConfig; CallDefine (OneConfig bareConfig)] apiWorld))
        ++ ((λ id, (resolvedName callConfig, RequestSide, id))
              <$> requestIds (oneShot callConfig i))
        ++ ((λ id, (resolvedName callConfig, ResponseSide, id))
              <$> responseIds (oneShot callConfig i)).
Proof.
  assert (defineRequestConfig (OneConfig apiConfig) emptyWorld = (Normal tt, apiWorld))
    as Hdef by (vm_compute; reflexivity).
  assert (apiConfig ∈ configsArray (OneConfig apiConfig)) as Hin
    by apply list_elem_of_here.
  split; [exact Hdef|]. split; [exact Hin|]. split; [reflexivity|].
  apply (request_restores_permanent_chains rejecting throwing emptyWorld
           (OneConfig apiConfig) apiConfig apiWorld
           [CallRequest callConfig; CallDefine (OneConfig bareConfig)] callConfig);
    [exact Hdef|exact Hin|reflexivity].
Defined.

(** C4.  A call whose underlying request resolves with [response]: the
    full-response flag is the call-level [withFullResponse] when it is
    defined and the one of the instance's defaults otherwise; when the flag
    is true the call resolves to the whole [response], and when it is false
    or unset to [response.data]. *)
Theorem withFullResponse_resolution send runHandler config w i response :
  instanceMap w !! resolvedName config = Some i →
  send (instance_ (oneShot config i)) (mergeConfig config (Some (Axios.defaults i)))
    = inr response →
  (request send runHandler config w).1 =
  Normal (match match withFullResponse config with
                | Some b => Some b
                | None => withFullResponse (Axios.defaults i)
                end with
          | Some true => Envelope response
          | Some false | None => Payload (Axios.data response)
          end).
Proof.
  intros Hi Hsend. unfold request, try_catch.
  rewrite (request_try_found send config w i Hi), Hsend. simpl.
  by destruct (withFullResponse config) as [[]|],
              (withFullResponse (Axios.defaults i)) as [[]|].
Qed.

Lemma withFullResponse_resolution_witness :
  instanceMap apiWorld !! resolvedName callConfig = Some (registered apiConfig) ∧
  resolving (instance_ (oneShot callConfig (registered apiConfig)))
            (mergeConfig callConfig (Some (Axios.defaults (registered apiConfig))))
    = inr okResponse ∧
  (request resolving returning callConfig apiWorld).1 =
  Normal (match match withFullResponse callConfig with
                | Some b => Some b
                | None => withFullResponse (Axios.defaults (registered apiConfig))
                end with
          | Some true => Envelope okResponse
          | Some false | None => Payload (Axios.data okResponse)
          end).
Proof.
  assert (instanceMap apiWorld !! resolvedName callConfig = Some (registered apiConfig))
    as Hi by (vm_compute; reflexivity).
  split; [exact Hi|]. split; [reflexivity|].
  apply (withFullResponse_resolution resolving returning callConfig apiWorld
           (registered apiConfig) okResponse); [exact Hi|reflexivity].
Defined.

(** C6.  When the configuration of the call sets [skipErrorHandler] to true
    and the call fails with [e], [request] rejects with [e] itself and calls
    no error handler, neither the call-level nor the instance-level one. *)
Theorem skipErrorHandler_rethrows_unhandled send runHandler config w e w2 :
  skipErrorHandler config = Some true →
  request_try send config w = (Throw e, w2) →
  request send runHandler config w = (Throw e, w2) ∧
  handlerCalls (events (request send runHandler config w).2)
  = handlerCalls (events w).
Proof.
  intros Hskip Htry.
  assert (request send runHandler config w = (Throw e, w2)) as Hreq.
  { rewrite (request_failing send runHandler config w e w2 Htry).
    by rewrite request_catch_eq, Hskip. }
  rewrite Hreq. split; [done|].
  by destruct (request_try_failing send config w e w2 Htry).
Qed.

Lemma skipErrorHandler_rethrows_unhandled_witness :
  skipErrorHandler skippingConfig = Some true ∧
  request_try rejecting skippingConfig defaultWorld
  = (Throw (Foreign 9), dispatched skippingConfig (registered bareConfig) defaultWorld) ∧
  request rejecting returning skippingConfig defaultWorld
  = (Throw (Foreign 9), dispatched skippingConfig (registered bareConfig) defaultWorld) ∧
  handlerCalls (events (request rejecting returning skippingConfig defaultWorld).2)
  = handlerCalls (events defaultWorld).
Proof.
  assert (request_try rejecting skippingConfig defaultWorld
          = (Throw (Foreign 9),
             dispatched skippingConfig (registered bareConfig) defaultWorld))
    as Htry by (vm_compute; reflexivity).
  split; [reflexivity|]. split; [exact Htry|].
  apply (skipErrorHandler_rethrows_unhandled rejecting returning skippingConfig
           defaultWorld (Foreign 9) _ eq_refl Htry).
Defined.

(** C7 (as stated, refuted).  The call fails with [Foreign 9], error handling
    is not skipped and a call-level handler is present; the handler throws,
    and [request] rejects with what the handler threw, not with the original
    error. *)
Lemma throwing_handler_replaces_the_error :
  truthy (skipErrorHandler handledConfig) = false ∧
  errorHandler_of (Some handledConfig) = Some 7 ∧
  (request_try rejecting handledConfig defaultWorld).1 = Throw (Foreign 9) ∧
  (request rejecting throwing handledConfig defaultWorld).1 = Throw (Foreign 2) ∧
  (request rejecting throwing handledConfig defaultWorld).1 ≠ Throw (Foreign 9).
Proof.
  assert ((request rejecting throwing handledConfig defaultWorld).1
          = Throw (Foreign 2)) as Hreq by (vm_compute; reflexivity).
  split; [reflexivity|]. split; [reflexivity|].
  split; [vm_compute; reflexivity|]. split; [exact Hreq|].
  rewrite Hreq. discriminate.
Qed.

(** C7 (amended).  A call fails with [e] and does not skip error handling.
    If a call-level handler is present it is called exactly once, with [e]
    and the merged configuration, and the instance-level handler is not
    called; if only an instance-level handler is present it is the one
    called, once; otherwise none is.  Afterwards [request] rejects with [e]
    when the handler returned or there was none, and with what the handler
    threw when it threw. *)
Theorem error_handler_policy send runHandler config w e w2 :
  truthy (skipErrorHandler config) = false →
  request_try send config w = (Throw e, w2) →
  let instanceConfig := defaults_of (instanceMap w !! resolvedName config) in
  let merged := mergeConfig config instanceConfig in
  let outcome h :=
    match runHandler h e merged with
    | None => Throw e
    | Some thrown => Throw thrown
    end in
  let r := request send runHandler config w in
  (∀ h, errorHandler_of (Some config) = Some h →
        handlerCalls (events r.2)
          = handlerCalls (events w) ++ [(CallLevel, h, e, merged)] ∧
        r.1 = outcome h) ∧
  (∀ h, errorHandler_of (Some config) = None →
        errorHandler_of instanceConfig = Some h →
        handlerCalls (events r.2)
          = handlerCalls (events w) ++ [(InstanceLevel, h, e, merged)] ∧
        r.1 = outcome h) ∧
  (errorHandler_of (Some config) = None →
   errorHandler_of instanceConfig = None →
   handlerCalls (events r.2) = handlerCalls (events w) ∧ r.1 = Throw e).
Proof.
  intros Hskip Htry instanceConfig merged outcome r.
  destruct (request_try_failing send config w e w2 Htry) as (Hcalls & Hdefaults).
  assert (r = request_catch runHandler config e w2) as Hr
    by apply (request_failing send runHandler config w e w2 Htry).
  rewrite request_catch_eq, Hskip, Hdefaults in Hr.
  fold instanceConfig in Hr. fold merged in Hr.
  unfold selectedHandler in Hr.
  split; [|split].
  - intros h Hh. rewrite Hh in Hr. rewrite Hr. unfold outcome. simpl.
    rewrite handlerCalls_app, Hcalls. split; [done|].
    by destruct (runHandler h e merged).
  - intros h Hnone Hh. rewrite Hnone, Hh in Hr. rewrite Hr. unfold outcome. simpl.
    rewrite handlerCalls_app, Hcalls. split; [done|].
    by destruct (runHandler h e merged).
  - intros Hnone Hnone'. rewrite Hnone, Hnone' in Hr. by rewrite Hr.
Qed.

Lemma error_handler_policy_witness :
  truthy (skipErrorHandler handledConfig) = false ∧
  request_try rejecting handledConfig defaultWorld
  = (Throw (Foreign 9), dispatched handledConfig (registered bareConfig) defaultWorld) ∧
  handlerCalls (events (request rejecting returning handledConfig defaultWorld).2)
  = handlerCalls (events defaultWorld)
    ++ [(CallLevel, 7, Foreign 9,
         mergeConfig handledConfig
           (defaults_of (instanceMap defaultWorld !! resolvedName handledConfig)))] ∧
  (request rejecting returning handledConfig defaultWorld).1
  = match returning 7 (Foreign 9)
            (mergeConfig handledConfig
               (defaults_of (instanceMap defaultWorld !! resolvedName handledConfig))) with
    | None => Throw (Foreign 9)
    | Some thrown => Throw thrown
    end.
Proof.
  assert (request_try rejecting handledConfig defaultWorld
          = (Throw (Foreign 9),
             dispatched handledConfig (registered bareConfig) defaultWorld))
    as Htry by (vm_compute; reflexivity).
  split; [reflexivity|]. split; [exact Htry|].
  destruct (error_handler_policy rejecting returning handledConfig defaultWorld
              (Foreign 9) _ eq_refl Htry) as (Hcall & _ & _).
  exact (Hcall 7 eq_refl).
Defined.

(** C2 (as stated, refuted).  The registry is empty, so the lookup of the
    default instance fails; the call has a call-level error handler and does
    not skip error handling; the handler is called with the not-found
    error. *)
Lemma not_found_error_reaches_call_level_handler :
  instanceMap emptyWorld !! resolvedName handledConfig = None ∧
  handlerCalls (events (request rejecting returning handledConfig emptyWorld).2)
  = [(CallLevel, 7, InstanceNotFound DEFAULT_INSTANCE_NAME, handledConfig)].
Proof. split; vm_compute; reflexivity. Qed.

(** C2 (amended).  When the resolved instance name is not in the registry,
    the not-found error goes through the failure policy of [request] like any
    other error.  With [skipErrorHandler] true, or without a call-level
    handler, no handler is called and [request] rejects with the not-found
    error.  Otherwise the call-level handler is called once with it and
    [request] then rejects with it, or with what the handler threw.  No
    instance-level handler is called in any case, and the registry is not
    touched. *)
Theorem not_found_error_policy send runHandler config w :
  instanceMap w !! resolvedName config = None →
  let error := InstanceNotFound (resolvedName config) in
  let merged := mergeConfig config None in
  request send runHandler config w =
  if truthy (skipErrorHandler config) then (Throw error, w)
  else
    match errorHandler_of (Some config) with
    | Some h =>
        (match runHandler h error merged with
         | None => Throw error
         | Some thrown => Throw thrown
         end,
         {| instanceMap := instanceMap w;
            events := events w ++ [Handled CallLevel h error merged] |})
    | None => (Throw error, w)
    end.
Proof.
  intros Hnone error merged.
  rewrite (request_failing send runHandler config w error w
             (request_try_not_found send config w Hnone)).
  rewrite request_catch_eq, Hnone. destruct (truthy _); [done|].
  unfold selectedHandler. cbn [defaults_of].
  destruct (errorHandler_of (Some config)) as [h|]; [|done].
  cbn zeta. fold error merged. by destruct (runHandler h error merged).
Qed.

Lemma not_found_error_policy_witness :
  instanceMap emptyWorld !! resolvedName handledConfig = None ∧
  request rejecting returning handledConfig emptyWorld
  = (Throw (InstanceNotFound DEFAULT_INSTANCE_NAME),
     {| instanceMap := instanceMap emptyWorld;
        events := events emptyWorld ++
          [Handled CallLevel 7 (InstanceNotFound DEFAULT_INSTANCE_NAME)
             (mergeConfig handledConfig None)] |}).
Proof.
  split; [reflexivity|].
  exact (not_found_error_policy rejecting returning handledConfig emptyWorld eq_refl).
Defined.

(** C10.  A call to a registered instance fails with [e].  The handler calls
    it makes are decided by the call-level [skipErrorHandler] alone: none
    when it is true, the selected handler otherwise.  The merged
    configuration carries the call-level value, and an instance whose
    defaults set [skipErrorHandler] to true has its handler called all the
    same when the call-level value is false or absent. *)
Theorem skip_decision_is_call_level_only send runHandler config w i e :
  instanceMap w !! resolvedName config = Some i →
  send (instance_ (oneShot config i)) (mergeConfig config (Some (Axios.defaults i)))
    = inl e →
  let merged := mergeConfig config (Some (Axios.defaults i)) in
  let calls := handlerCalls (events (request send runHandler config w).2) in
  skipErrorHandler merged = skipErrorHandler config ∧
  calls = handlerCalls (events w) ++
          (if truthy (skipErrorHandler config) then []
           else match selectedHandler config (Some (Axios.defaults i)) with
                | Some (l, h) => [(l, h, e, merged)]
                | None => []
                end) ∧
  (skipErrorHandler (Axios.defaults i) = Some true →
   truthy (skipErrorHandler config) = false →
   ∀ l h, selectedHandler config (Some (Axios.defaults i)) = Some (l, h) →
          calls = handlerCalls (events w) ++ [(l, h, e, merged)]).
Proof.
  intros Hi Hsend merged calls.
  assert (calls = handlerCalls (events w) ++
          (if truthy (skipErrorHandler config) then []
           else match selectedHandler config (Some (Axios.defaults i)) with
                | Some (l, h) => [(l, h, e, merged)]
                | None => []
                end)) as Hcalls.
  { unfold calls, request, try_catch.
    rewrite (request_try_found send config w i Hi), Hsend.
    rewrite request_catch_eq, dispatched_defaults.
    assert (handlerCalls (events (dispatched config i w)) = handlerCalls (events w))
      as Hsame.
    { unfold dispatched. simpl.
      by rewrite handlerCalls_app, handlerCalls_dispatchEvents, app_nil_r. }
    destruct (truthy _); cbn [snd]; [by rewrite Hsame, app_nil_r|].
    destruct (selectedHandler _ _) as [[l h]|]; cbn [snd events].
    - by rewrite handlerCalls_app, Hsame.
    - by rewrite Hsame, app_nil_r. }
  split; [done|]. split; [exact Hcalls|].
  intros _ Hskip l h Hsel. by rewrite Hcalls, Hskip, Hsel.
Qed.

Lemma skip_decision_is_call_level_only_witness :
  instanceMap apiWorld !! resolvedName callConfig = Some (registered apiConfig) ∧
  rejecting (instance_ (oneShot callConfig (registered apiConfig)))
            (mergeConfig callConfig (Some (Axios.defaults (registered apiConfig))))
    = inl (Foreign 9) ∧
  skipErrorHandler (Axios.defaults (registered apiConfig)) = Some true ∧
  truthy (skipErrorHandler callConfig) = false ∧
  selectedHandler callConfig (Some (Axios.defaults (registered apiConfig)))
    = Some (InstanceLevel, 20) ∧
  handlerCalls (events (request rejecting returning callConfig apiWorld).2)
  = handlerCalls (events apiWorld)
    ++ [(InstanceLevel, 20, Foreign 9,
         mergeConfig callConfig (Some (Axios.defaults (registered apiConfig))))].
Proof.
  assert (instanceMap apiWorld !! resolvedName callConfig = Some (registered apiConfig))
    as Hi by (vm_compute; reflexivity).
  split; [exact Hi|]. split; [reflexivity|]. split; [reflexivity|].
  split; [reflexivity|]. split; [reflexivity|].
  destruct (skip_decision_is_call_level_only rejecting returning callConfig apiWorld
              (registered apiConfig) (Foreign 9) Hi eq_refl) as (_ & _ & Hinst).
  exact (Hinst eq_refl eq_refl InstanceLevel 20 eq_refl).
Defined.

(** * Further properties of the module *)

(** ** The bulk attach helper in closed form *)

Lemma handleRequestInterceptor_normalized (instance : AxiosInstance) x :
  handleRequestInterceptor instance x =
  match normalized x with
  | Some h =>
      (Z.of_nat (length (Axios.request (Axios.interceptors instance))),
       {| Axios.defaults := Axios.defaults instance;
          Axios.interceptors :=
            {| Axios.request := Axios.request (Axios.interceptors instance) ++ [Some h];
               Axios.response := Axios.response (Axios.interceptors instance) |} |})
  | None => (INVALID_INTERCEPTOR_ID, instance)
  end.
Proof.
  destruct x as [f|elems|[c e]]; simpl; [done| |].
  - by destruct (length elems =? 2).
  - destruct (has_key c); [|done]. by destruct (get_field c).
Qed.

Lemma handleResponseInterceptor_normalized (instance : AxiosInstance) x :
  handleResponseInterceptor instance x =
  match normalized x with
  | Some h =>
      (Z.of_nat (length (Axios.response (Axios.interceptors instance))),
       {| Axios.defaults := Axios.defaults instance;
          Axios.interceptors :=
            {| Axios.request := Axios.request (Axios.interceptors instance);
               Axios.response := Axios.response (Axios.interceptors instance) ++ [Some h] |} |})
  | None => (INVALID_INTERCEPTOR_ID, instance)
  end.
Proof.
  destruct x as [f|elems|[c e]]; simpl; [done| |].
  - by destruct (length elems =? 2).
  - destruct (has_key c); [|done]. by destruct (get_field c).
Qed.

Lemma valid_id_test n : (Z.of_nat n =? INVALID_INTERCEPTOR_ID)%Z = false.
Proof. apply Z.eqb_neq. unfold INVALID_INTERCEPTOR_ID. lia. Qed.

Lemma attachRequest_grownBy i0 b reqs resps x :
  attachRequest b (grownBy i0 b reqs resps) x = grownBy i0 b (reqs ++ [x]) resps.
Proof.
  unfold attachRequest. rewrite handleRequestInterceptor_normalized.
  unfold grownBy. rewrite omap_app.
  cbn [instance_ requestIds responseIds Axios.defaults Axios.interceptors
       Axios.request Axios.response omap list_omap].
  destruct (normalized x) as [h|]; cbn [app length].
  - rewrite length_app, length_fmap, valid_id_test.
    rewrite fmap_app, <- app_assoc. cbn [negb andb fmap list_fmap].
    destruct b; [|done].
    rewrite length_app. cbn [length].
    replace (length (omap normalized reqs) + 1)
      with (S (length (omap normalized reqs))) by lia.
    by rewrite seq_push, fmap_app.
  - rewrite !app_nil_r. by destruct b.
Qed.

Lemma attachResponse_grownBy i0 b reqs resps x :
  attachResponse b (grownBy i0 b reqs resps) x = grownBy i0 b reqs (resps ++ [x]).
Proof.
  unfold attachResponse. rewrite handleResponseInterceptor_normalized.
  unfold grownBy. rewrite omap_app.
  cbn [instance_ requestIds responseIds Axios.defaults Axios.interceptors
       Axios.request Axios.response omap list_omap].
  destruct (normalized x) as [h|]; cbn [app length].
  - rewrite length_app, length_fmap, valid_id_test.
    rewrite fmap_app, <- app_assoc. cbn [negb andb fmap list_fmap].
    destruct b; [|done].
    rewrite length_app. cbn [length].
    replace (length (omap normalized resps) + 1)
      with (S (length (omap normalized resps))) by lia.
    by rewrite seq_push, fmap_app.
  - rewrite !app_nil_r. by destruct b.
Qed.

Lemma foldl_attachRequest_grownBy i0 b resps l : ∀ reqs,
  foldl (attachRequest b) (grownBy i0 b reqs resps) l = grownBy i0 b (reqs ++ l) resps.
Proof.
  induction l as [|x l IH]; intros reqs; simpl.
  - by rewrite app_nil_r.
  - rewrite attachRequest_grownBy, IH, <- app_assoc. done.
Qed.

Lemma foldl_attachResponse_grownBy i0 b reqs l : ∀ resps,
  foldl (attachResponse b) (grownBy i0 b reqs resps) l = grownBy i0 b reqs (resps ++ l).
Proof.
  induction l as [|x l IH]; intros resps; simpl.
  - by rewrite app_nil_r.
  - rewrite attachResponse_grownBy, IH, <- app_assoc. done.
Qed.

Lemma grownBy_nothing (i0 : AxiosInstance) b :
  {| instance_ := i0; requestIds := []; responseIds := [] |} = grownBy i0 b [] [].
Proof.
  destruct i0 as [d [rq rs]]. unfold grownBy. simpl.
  rewrite !app_nil_r. by destruct b.
Qed.

(** The helper as one equation. *)
Lemma addInterceptorsToInstance_grownBy i0 config b :
  addInterceptorsToInstance i0 config b
  = grownBy i0 b (declaredRequest config) (declaredResponse config).
Proof.
  unfold addInterceptorsToInstance, declaredRequest, declaredResponse.
  rewrite (grownBy_nothing i0 b).
  destruct (interceptors config) as [[rq rs]|]; simpl;
    [destruct rq as [dq|], rs as [ds|]; simpl|];
    destruct (requestInterceptors config) as [lq|],
             (responseInterceptors config) as [ls|];
    repeat first [rewrite foldl_attachRequest_grownBy
                 |rewrite foldl_attachResponse_grownBy];
    simpl; rewrite ?app_nil_r; done.
Qed.

(** X1.  Whatever the mode, the helper pushes on each manager the handlers
    of the declarations of that side, in the order nested-then-flat, after
    the slots that were there; declarations that register nothing are
    skipped, the other manager's slots and the defaults are not touched. *)
Theorem attach_pushes_declared_handlers_in_order (i : AxiosInstance) config isOneTime :
  let st := addInterceptorsToInstance i config isOneTime in
  Axios.request (Axios.interceptors (instance_ st))
    = Axios.request (Axios.interceptors i)
      ++ (Some <$> omap normalized (declaredRequest config)) ∧
  Axios.response (Axios.interceptors (instance_ st))
    = Axios.response (Axios.interceptors i)
      ++ (Some <$> omap normalized (declaredResponse config)) ∧
  Axios.defaults (instance_ st) = Axios.defaults i.
Proof. intros st. unfold st. by rewrite addInterceptorsToInstance_grownBy. Qed.

(** X2.  In permanent mode (the mode of [defineRequestConfig]) the helper
    returns two empty identifier arrays, whatever it attached. *)
Theorem permanent_attach_returns_no_identifiers (i : AxiosInstance) config :
  requestIds (addInterceptorsToInstance i config false) = [] ∧
  responseIds (addInterceptorsToInstance i config false) = [].
Proof. by rewrite addInterceptorsToInstance_grownBy. Qed.

Lemma block_ids_valid n k id :
  id ∈ (Z.of_nat <$> seq n k) → id ≠ INVALID_INTERCEPTOR_ID.
Proof.
  intros Hin. apply list_elem_of_fmap in Hin as (m & -> & _).
  unfold INVALID_INTERCEPTOR_ID. lia.
Qed.

Lemma block_ids_NoDup n k : NoDup (Z.of_nat <$> seq n k).
Proof. apply NoDup_fmap; [intros x y; apply Nat2Z.inj|apply NoDup_seq]. Qed.

(** X3.  In one-shot mode the helper collects one identifier per handler it
    pushed, on each side; the identifiers of a side are pairwise distinct and
    none of them is the sentinel. *)
Theorem one_shot_identifiers_are_distinct_and_valid (i : AxiosInstance) config :
  let st := addInterceptorsToInstance i config true in
  (length (requestIds st) = length (omap normalized (declaredRequest config)) ∧
   NoDup (requestIds st) ∧
   ∀ id, id ∈ requestIds st → id ≠ INVALID_INTERCEPTOR_ID) ∧
  (length (responseIds st) = length (omap normalized (declaredResponse config)) ∧
   NoDup (responseIds st) ∧
   ∀ id, id ∈ responseIds st → id ≠ INVALID_INTERCEPTOR_ID).
Proof.
  intros st. unfold st. rewrite addInterceptorsToInstance_grownBy.
  unfold grownBy. simpl. split.
  - split; [by rewrite length_fmap, length_seq|].
    split; [apply block_ids_NoDup|]. intros id. apply block_ids_valid.
  - split; [by rewrite length_fmap, length_seq|].
    split; [apply block_ids_NoDup|]. intros id. apply block_ids_valid.
Qed.

(** ** What a call leaves in the registry *)

Lemma declared_mergeConfig config ic :
  declaredRequest (mergeConfig config ic) = declaredRequest config ∧
  declaredResponse (mergeConfig config ic) = declaredResponse config.
Proof. done. Qed.

(** The cleanup empties every slot the one-shot attach pushed. *)
Lemma ejectAll_oneShot config i : ejectAll (oneShot config i) = afterCall config i.
Proof.
  unfold oneShot. rewrite addInterceptorsToInstance_grownBy.
  destruct (declared_mergeConfig config (Some (Axios.defaults i))) as [-> ->].
  unfold ejectAll, grownBy, afterCall.
  cbn [instance_ requestIds responseIds].
  rewrite foldl_eject_response, foldl_eject_request.
  cbn [Axios.defaults Axios.interceptors Axios.request Axios.response].
  rewrite <- (length_fmap Some (omap normalized (declaredRequest config))).
  rewrite <- (length_fmap Some (omap normalized (declaredResponse config))).
  by rewrite !eject_block.
Qed.

Lemma request_instanceMap send runHandler config w :
  instanceMap (request send runHandler config w).2 =
  match instanceMap w !! resolvedName config with
  | Some i => <[resolvedName config := afterCall config i]> (instanceMap w)
  | None => instanceMap w
  end.
Proof.
  unfold request, try_catch.
  destruct (instanceMap w !! resolvedName config) as [i|] eqn:Hk.
  - rewrite (request_try_found send config w i Hk).
    destruct (send _ _) as [e|response]; [rewrite request_catch_instanceMap|];
      unfold dispatched; simpl; by rewrite ejectAll_oneShot.
  - rewrite (request_try_not_found send config w Hk).
    by rewrite request_catch_instanceMap.
Qed.

(** X5.  A call never registers or unregisters an instance, and it leaves
    every instance other than its target exactly as it was, whether the
    target exists or not and whatever the outcome. *)
Theorem request_touches_only_its_target send runHandler config w :
  dom (instanceMap (request send runHandler config w).2) = dom (instanceMap w) ∧
  delete (resolvedName config) (instanceMap (request send runHandler config w).2)
    = delete (resolvedName config) (instanceMap w).
Proof.
  rewrite request_instanceMap.
  destruct (instanceMap w !! resolvedName config) as [i|] eqn:Hk; [|done].
  split.
  - rewrite dom_insert_L. apply subseteq_union_1_L, singleton_subseteq_l.
    by apply elem_of_dom_2 with i.
  - by rewrite delete_insert_eq.
Qed.

(** X6.  A call whose configuration declares no interceptor that registers
    anything leaves the whole registry exactly as it was, whatever its
    outcome. *)
Theorem request_without_one_shot_interceptors_keeps_registry send runHandler config w :
  omap normalized (declaredRequest config) = [] →
  omap normalized (declaredResponse config) = [] →
  instanceMap (request send runHandler config w).2 = instanceMap w.
Proof.
  intros Hreq Hresp. rewrite request_instanceMap.
  destruct (instanceMap w !! resolvedName config) as [i|] eqn:Hk; [|done].
  apply insert_id. rewrite Hk. f_equal.
  unfold afterCall. rewrite Hreq, Hresp. simpl. rewrite !app_nil_r.
  by destruct i as [d [rq rs]].
Qed.

Lemma request_without_one_shot_interceptors_keeps_registry_witness :
  omap normalized (declaredRequest handledConfig) = [] ∧
  omap normalized (declaredResponse handledConfig) = [] ∧
  instanceMap (request rejecting throwing handledConfig defaultWorld).2
    = instanceMap defaultWorld.
Proof.
  split; [reflexivity|]. split; [reflexivity|].
  exact (request_without_one_shot_interceptors_keeps_registry rejecting throwing
           handledConfig defaultWorld eq_refl eq_refl).
Defined.

(** ** The order of the calls made by the dispatcher *)

Lemma chain_pushed (hs : list Axios.Handler) : Axios.chain (Some <$> hs) = hs.
Proof. induction hs as [|h hs IH]; [done|]. simpl. by f_equal. Qed.

(** X7.  The trace of a call to a registered instance.  The underlying
    [instance.request] is called once, with the merged configuration; then
    the one-shot slots are ejected, the request-side ones first, each side in
    the order pushed, the identifiers being the indices that follow the slots
    the managers had; only then, and only when the call was rejected, error
    handling is not skipped and a handler is selected, that handler is
    called, with the rejection and the same merged configuration. *)
Theorem call_trace send runHandler config w i :
  instanceMap w !! resolvedName config = Some i →
  let name := resolvedName config in
  let merged := mergeConfig config (Some (Axios.defaults i)) in
  events (request send runHandler config w).2 =
  events w
  ++ Sent name merged
     :: (Ejected name RequestSide <$>
           (Z.of_nat <$> seq (length (Axios.request (Axios.interceptors i)))
                             (length (omap normalized (declaredRequest config)))))
     ++ (Ejected name ResponseSide <$>
           (Z.of_nat <$> seq (length (Axios.response (Axios.interceptors i)))
                             (length (omap normalized (declaredResponse config)))))
     ++ match send (instance_ (oneShot config i)) merged with
        | inr _ => []
        | inl e =>
            if truthy (skipErrorHandler config) then []
            else match selectedHandler config (Some (Axios.defaults i)) with
                 | Some (l, h) => [Handled l h e merged]
                 | None => []
                 end
        end.
Proof.
  intros Hi name merged. unfold request, try_catch.
  rewrite (request_try_found send config w i Hi). fold merged.
  assert (events (dispatched config i w)
          = events w
            ++ Sent name merged
               :: (Ejected name RequestSide <$>
                     (Z.of_nat <$> seq (length (Axios.request (Axios.interceptors i)))
                        (length (omap normalized (declaredRequest config)))))
               ++ (Ejected name ResponseSide <$>
                     (Z.of_nat <$> seq (length (Axios.response (Axios.interceptors i)))
                        (length (omap normalized (declaredResponse config)))))) as Hev.
  { unfold dispatched, dispatchEvents, oneShot. simpl.
    by rewrite addInterceptorsToInstance_grownBy. }
  destruct (send _ _) as [e|response].
  - rewrite request_catch_eq, dispatched_defaults.
    destruct (truthy _); cbn [snd]; [by rewrite Hev, app_nil_r|].
    destruct (selectedHandler _ _) as [[l h]|]; cbn [snd events].
    + fold merged. rewrite Hev, <- !app_assoc. simpl. by rewrite <- app_assoc.
    + by rewrite Hev, app_nil_r.
  - cbn [snd]. by rewrite Hev, app_nil_r.
Qed.

Lemma call_trace_witness :
  instanceMap apiWorld !! resolvedName callConfig = Some (registered apiConfig) ∧
  events (request rejecting returning callConfig apiWorld).2 =
  events apiWorld
  ++ [Sent (Name "api") (mergeConfig callConfig (Some apiConfig));
      Ejected (Name "api") RequestSide 1; Ejected (Name "api") RequestSide 2;
      Ejected (Name "api") ResponseSide 2;
      Handled InstanceLevel 20 (Foreign 9) (mergeConfig callConfig (Some apiConfig))].
Proof.
  assert (instanceMap apiWorld !! resolvedName callConfig = Some (registered apiConfig))
    as Hi by (vm_compute; reflexivity).
  split; [exact Hi|].
  exact (call_trace rejecting returning callConfig apiWorld (registered apiConfig) Hi).
Defined.

(** X8.  While the underlying call runs, the target instance carries on each
    chain its permanent interceptors followed by the one-shot ones of the
    call, and the call is made with the merged configuration: the outcome of
    [request] depends on the transport only through what it does for such an
    instance and that configuration. *)
Theorem underlying_call_sees_one_shot_interceptors send1 send2 runHandler config w i :
  instanceMap w !! resolvedName config = Some i →
  (∀ inst : AxiosInstance,
     Axios.defaults inst = Axios.defaults i →
     Axios.chain (Axios.request (Axios.interceptors inst))
       = Axios.chain (Axios.request (Axios.interceptors i))
         ++ omap normalized (declaredRequest config) →
     Axios.chain (Axios.response (Axios.interceptors inst))
       = Axios.chain (Axios.response (Axios.interceptors i))
         ++ omap normalized (declaredResponse config) →
     send1 inst (mergeConfig config (Some (Axios.defaults i)))
       = send2 inst (mergeConfig config (Some (Axios.defaults i)))) →
  request send1 runHandler config w = request send2 runHandler config w.
Proof.
  intros Hi Hagree. unfold request, try_catch.
  rewrite (request_try_found send1 config w i Hi),
          (request_try_found send2 config w i Hi).
  rewrite Hagree; [done| | |];
    unfold oneShot; rewrite addInterceptorsToInstance_grownBy; simpl.
  - done.
  - by rewrite chain_app, chain_pushed.
  - by rewrite chain_app, chain_pushed.
Qed.

Lemma underlying_call_sees_one_shot_interceptors_witness :
  instanceMap apiWorld !! resolvedName callConfig = Some (registered apiConfig) ∧
  request rejecting returning callConfig apiWorld
  = request rejectingOnThree returning callConfig apiWorld.
Proof.
  assert (instanceMap apiWorld !! resolvedName callConfig = Some (registered apiConfig))
    as Hi by (vm_compute; reflexivity).
  split; [exact Hi|].
  apply (underlying_call_sees_one_shot_interceptors rejecting rejectingOnThree
           returning callConfig apiWorld (registered apiConfig) Hi).
  intros inst _ Hchain _. unfold rejectingOnThree. rewrite Hchain. reflexivity.
Defined.

(** ** Registration and lookup *)

Lemma getRequestInstance_lookup name w :
  getRequestInstance name w =
  match instanceMap w !! default DEFAULT_INSTANCE_NAME name with
  | Some i => (Normal i, w)
  | None => (Throw (InstanceNotFound (default DEFAULT_INSTANCE_NAME name)), w)
  end.
Proof.
  unfold getRequestInstance, bind, Map_get. simpl.
  by destruct (instanceMap w !! default DEFAULT_INSTANCE_NAME name).
Qed.

(** A registration of one configuration that throws has changed nothing. *)
Lemma defineOne_throws config w e w' :
  defineOne config w = (Throw e, w') →
  w' = w ∧ (e = InstanceExists (resolvedName config) ∨ e = NameRequired).
Proof.
  destruct (instanceMap w !! resolvedName config) as [i|] eqn:Hk.
  - rewrite defineOne_registered by (by rewrite Hk). intros [= <- <-]. auto.
  - rewrite defineOne_fresh by done.
    destruct (negb _ && _); [|done]. intros [= <- <-]. auto.
Qed.

(** A registration that completes found the name free. *)
Lemma defineOne_completes config w w' :
  defineOne config w = (Normal tt, w') →
  instanceMap w !! resolvedName config = None ∧
  instanceMap w' = <[resolvedName config := registered config]> (instanceMap w).
Proof.
  destruct (instanceMap w !! resolvedName config) as [i|] eqn:Hk.
  - by rewrite defineOne_registered by (by rewrite Hk).
  - rewrite defineOne_fresh by done.
    destruct (negb _ && _); [done|]. by intros [= <-].
Qed.

Lemma forEach_app {A} (f : A → M unit) l1 l2 w :
  forEach f (l1 ++ l2) w =
  match forEach f l1 w with
  | (Normal _, w1) => forEach f l2 w1
  | (Throw e, w1) => (Throw e, w1)
  end.
Proof.
  revert w. induction l1 as [|x l1 IH]; intros w; [done|].
  simpl. unfold bind. destruct (f x w) as [[[]|e] w1]; [apply IH|done].
Qed.

(** X9.  Round trip: after a [defineRequestConfig] call that completes,
    [getRequestInstance] given the [instanceName] of any of its
    configurations (none for an unnamed one) returns the instance built from
    that configuration, and does not change the state. *)
Theorem registered_instance_is_found configs config w w' :
  defineRequestConfig configs w = (Normal tt, w') →
  config ∈ configsArray configs →
  getRequestInstance (instanceName config) w' = (Normal (registered config), w') ∧
  Axios.defaults (registered config) = config.
Proof.
  intros Hdef Hin. split; [|apply registered_defaults].
  rewrite getRequestInstance_lookup. fold (resolvedName config).
  by rewrite (defineRequestConfig_stores configs config w w' Hdef Hin).
Qed.

Lemma registered_instance_is_found_witness :
  defineRequestConfig (ManyConfigs [bareConfig; apiConfig; shopConfig]) emptyWorld
  = (Normal tt,
     (defineRequestConfig (ManyConfigs [bareConfig; apiConfig; shopConfig]) emptyWorld).2) ∧
  apiConfig ∈ configsArray (ManyConfigs [bareConfig; apiConfig; shopConfig]) ∧
  getRequestInstance (instanceName apiConfig)
    (defineRequestConfig (ManyConfigs [bareConfig; apiConfig; shopConfig]) emptyWorld).2
  = (Normal (registered apiConfig),
     (defineRequestConfig (ManyConfigs [bareConfig; apiConfig; shopConfig]) emptyWorld).2) ∧
  Axios.defaults (registered apiConfig) = apiConfig.
Proof.
  assert (defineRequestConfig (ManyConfigs [bareConfig; apiConfig; shopConfig]) emptyWorld
          = (Normal tt,
             (defineRequestConfig (ManyConfigs [bareConfig; apiConfig; shopConfig])
                emptyWorld).2)) as Hdef by (vm_compute; reflexivity).
  assert (apiConfig ∈ configsArray (ManyConfigs [bareConfig; apiConfig; shopConfig]))
    as Hin by (apply list_elem_of_further, list_elem_of_here).
  split; [exact Hdef|]. split; [exact Hin|].
  exact (registered_instance_is_found _ apiConfig emptyWorld _ Hdef Hin).
Defined.

(** X10.  Once [getRequestInstance] finds an instance under a name, it finds
    one under that name after any sequence of [defineRequestConfig] and
    [request] calls, completed or failed, and that instance has the same
    defaults and the same interceptors on both chains: no call of the module
    replaces or removes a registered instance or leaves an interceptor
    behind on it. *)
Theorem registered_instance_stays_found send runHandler name w i calls :
  getRequestInstance name w = (Normal i, w) →
  ∃ i', getRequestInstance name (run send runHandler calls w)
          = (Normal i', run send runHandler calls w) ∧
        Axios.defaults i' = Axios.defaults i ∧
        Axios.chain (Axios.request (Axios.interceptors i'))
          = Axios.chain (Axios.request (Axios.interceptors i)) ∧
        Axios.chain (Axios.response (Axios.interceptors i'))
          = Axios.chain (Axios.response (Axios.interceptors i)).
Proof.
  rewrite getRequestInstance_lookup.
  destruct (instanceMap w !! default DEFAULT_INSTANCE_NAME name) as [j|] eqn:Hk;
    [|done].
  intros [= ->].
  destruct (run_keeps send runHandler calls w _ i Hk) as (i' & Hi' & Hrest).
  exists i'. split; [|exact Hrest].
  by rewrite getRequestInstance_lookup, Hi'.
Qed.

Lemma registered_instance_stays_found_witness :
  getRequestInstance (Some (Name "api")) apiWorld = (Normal (registered apiConfig), apiWorld) ∧
  ∃ i', getRequestInstance (Some (Name "api"))
          (run rejecting throwing
             [CallRequest callConfig; CallDefine (OneConfig apiConfig);
              CallDefine (OneConfig bareConfig); CallRequest handledConfig] apiWorld)
          = (Normal i',
             run rejecting throwing
               [CallRequest callConfig; CallDefine (OneConfig apiConfig);
                CallDefine (OneConfig bareConfig); CallRequest handledConfig] apiWorld) ∧
        Axios.defaults i' = Axios.defaults (registered apiConfig) ∧
        Axios.chain (Axios.request (Axios.interceptors i'))
          = Axios.chain (Axios.request (Axios.interceptors (registered apiConfig))) ∧
        Axios.chain (Axios.response (Axios.interceptors i'))
          = Axios.chain (Axios.response (Axios.interceptors (registered apiConfig))).
Proof.
  assert (getRequestInstance (Some (Name "api")) apiWorld
          = (Normal (registered apiConfig), apiWorld)) as Hget
    by (vm_compute; reflexivity).
  split; [exact Hget|].
  exact (registered_instance_stays_found rejecting throwing (Some (Name "api"))
           apiWorld (registered apiConfig) _ Hget).
Defined.

(** Every configuration of a run of registrations that completes was free
    when the run started. *)
Lemma forEach_defineOne_free configs : ∀ w w' config,
  forEach defineOne configs w = (Normal tt, w') →
  config ∈ configs →
  instanceMap w !! resolvedName config = None.
Proof.
  induction configs as [|c configs IH]; intros w w' config Hrun Hin.
  - by apply elem_of_nil in Hin.
  - simpl in Hrun. unfold bind in Hrun.
    destruct (defineOne c w) as [[[]|e] w1] eqn:Hc; [|done].
    apply defineOne_completes in Hc as (Hfree & Hmap).
    apply elem_of_cons in Hin as [->|Hin]; [done|].
    specialize (IH w1 w' config Hrun Hin).
    rewrite Hmap in IH.
    destruct (decide (resolvedName c = resolvedName config)) as [Heq|Hne].
    + rewrite Heq, lookup_insert_eq in IH. done.
    + by rewrite lookup_insert_ne in IH.
Qed.

(** X11.  An array registration is not all-or-nothing.  When the
    configurations [done] register and the next one, [c], is refused, the
    call throws the error of [c], the configurations after [c] are never
    looked at, and the state is the one in which every configuration of
    [done] is registered. *)
Theorem array_registration_keeps_completed_prefix done c rest w w1 e w2 :
  defineRequestConfig (ManyConfigs done) w = (Normal tt, w1) →
  defineRequestConfig (OneConfig c) w1 = (Throw e, w2) →
  defineRequestConfig (ManyConfigs (done ++ c :: rest)) w = (Throw e, w1) ∧
  ∀ d, d ∈ done → instanceMap w1 !! resolvedName d = Some (registered d).
Proof.
  unfold defineRequestConfig. simpl. intros Hdone Hc. split.
  - rewrite forEach_app, Hdone. simpl. unfold bind in *.
    destruct (defineOne c w1) as [[[]|e'] w'] eqn:Hone; [done|].
    apply defineOne_throws in Hone as (-> & _). by injection Hc as -> _.
  - intros d Hd. by apply (forEach_defineOne_stores done w w1 d).
Qed.

Lemma array_registration_keeps_completed_prefix_witness :
  defineRequestConfig (ManyConfigs [shopConfig]) apiWorld
  = (Normal tt, (defineRequestConfig (ManyConfigs [shopConfig]) apiWorld).2) ∧
  defineRequestConfig (OneConfig apiConfig)
    (defineRequestConfig (ManyConfigs [shopConfig]) apiWorld).2
  = (Throw (InstanceExists (Name "api")),
     (defineRequestConfig (ManyConfigs [shopConfig]) apiWorld).2) ∧
  defineRequestConfig (ManyConfigs ([shopConfig] ++ apiConfig :: [bareConfig])) apiWorld
  = (Throw (InstanceExists (Name "api")),
     (defineRequestConfig (ManyConfigs [shopConfig]) apiWorld).2) ∧
  ∀ d, d ∈ [shopConfig] →
       instanceMap (defineRequestConfig (ManyConfigs [shopConfig]) apiWorld).2
         !! resolvedName d = Some (registered d).
Proof.
  assert (defineRequestConfig (ManyConfigs [shopConfig]) apiWorld
          = (Normal tt, (defineRequestConfig (ManyConfigs [shopConfig]) apiWorld).2))
    as Hdone by (vm_compute; reflexivity).
  assert (defineRequestConfig (OneConfig apiConfig)
            (defineRequestConfig (ManyConfigs [shopConfig]) apiWorld).2
          = (Throw (InstanceExists (Name "api")),
             (defineRequestConfig (ManyConfigs [shopConfig]) apiWorld).2))
    as Hc by (vm_compute; reflexivity).
  split; [exact Hdone|]. split; [exact Hc|].
  exact (array_registration_keeps_completed_prefix [shopConfig] apiConfig [bareConfig]
           apiWorld _ _ _ Hdone Hc).
Defined.

(** X12.  When a [defineRequestConfig] call completes, the names its
    configurations resolve to are pairwise distinct and none was registered
    before; the registry holds exactly those names in addition to the ones it
    held, one new entry per configuration.  In particular an array with two
    unnamed configurations never completes. *)
Theorem completed_registration_adds_distinct_names configs w w' :
  defineRequestConfig configs w = (Normal tt, w') →
  NoDup (resolvedName <$> configsArray configs) ∧
  (∀ c, c ∈ configsArray configs → instanceMap w !! resolvedName c = None) ∧
  dom (instanceMap w')
    = list_to_set (resolvedName <$> configsArray configs) ∪ dom (instanceMap w) ∧
  size (instanceMap w') = size (instanceMap w) + length (configsArray configs).
Proof.
  unfold defineRequestConfig. generalize (configsArray configs). clear configs.
  intros configs. revert w.
  induction configs as [|c configs IH]; intros w Hrun.
  - injection Hrun as <-. split; [constructor|]. split.
    + intros c Hc. by apply elem_of_nil in Hc.
    + simpl. split; [by rewrite (left_id_L ∅ (∪))|lia].
  - pose proof Hrun as Hall. simpl in Hrun. unfold bind in Hrun.
    destruct (defineOne c w) as [[[]|e] w1] eqn:Hc; [|done].
    destruct (IH w1 Hrun) as (Hnodup & _ & Hdom & Hsize).
    apply defineOne_completes in Hc as (Hc & Hmap).
    split; [|split; [|split]].
    + cbn [fmap list_fmap]. constructor; [|done].
      intros Hin. apply list_elem_of_fmap in Hin as (c' & Hname & Hc').
      pose proof (forEach_defineOne_free configs w1 w' c' Hrun Hc') as Hfree.
      by rewrite Hmap, <- Hname, lookup_insert_eq in Hfree.
    + intros c' Hc'. exact (forEach_defineOne_free (c :: configs) w w' c' Hall Hc').
    + rewrite Hdom, Hmap, dom_insert_L. cbn [fmap list_fmap list_to_set].
      rewrite (assoc_L (∪)).
      by rewrite (comm_L (∪) (list_to_set (resolvedName <$> configs)) {[resolvedName c]}).
    + rewrite Hsize, Hmap, map_size_insert_None by done. simpl. lia.
Qed.

Lemma completed_registration_adds_distinct_names_witness :
  defineRequestConfig (ManyConfigs [bareConfig; shopConfig]) apiWorld
  = (Normal tt, (defineRequestConfig (ManyConfigs [bareConfig; shopConfig]) apiWorld).2) ∧
  size (instanceMap (defineRequestConfig (ManyConfigs [bareConfig; shopConfig]) apiWorld).2)
  = size (instanceMap apiWorld) + length (configsArray (ManyConfigs [bareConfig; shopConfig])).
Proof.
  assert (defineRequestConfig (ManyConfigs [bareConfig; shopConfig]) apiWorld
          = (Normal tt,
             (defineRequestConfig (ManyConfigs [bareConfig; shopConfig]) apiWorld).2))
    as Hdef by (vm_compute; reflexivity).
  split; [exact Hdef|].
  destruct (completed_registration_adds_distinct_names
              (ManyConfigs [bareConfig; shopConfig]) apiWorld _ Hdef)
    as (_ & _ & _ & Hsize).
  exact Hsize.
Defined.

(** X13.  A registration of one configuration that is refused changes
    nothing, neither the registry nor the trace, and it is refused for one of
    two reasons only: the resolved name is registered (duplicate-instance
    error), or the [instanceName] is the empty string, which is not
    registered, while the default instance is (name-required error). *)
Theorem refused_registration_changes_nothing config w e w' :
  defineRequestConfig (OneConfig config) w = (Throw e, w') →
  w' = w ∧
  ((e = InstanceExists (resolvedName config) ∧
    is_Some (instanceMap w !! resolvedName config)) ∨
   (e = NameRequired ∧
    instanceName config = Some (Name EmptyString) ∧
    instanceMap w !! Name EmptyString = None ∧
    is_Some (instanceMap w !! DEFAULT_INSTANCE_NAME))).
Proof.
  unfold defineRequestConfig. simpl. unfold bind. intros Hrun.
  destruct (defineOne config w) as [[[]|e'] w1] eqn:Hone; [done|].
  injection Hrun as -> ->.
  pose proof (defineOne_name_required config w) as Hreq.
  rewrite Hone in Hreq. simpl in Hreq.
  destruct (instanceMap w !! resolvedName config) as [i|] eqn:Hk.
  - rewrite defineOne_registered in Hone by (by rewrite Hk).
    injection Hone as <- <-. split; [done|]. left. eauto.
  - rewrite defineOne_fresh in Hone by done.
    destruct (negb _ && _); [|done]. injection Hone as <- <-.
    split; [done|]. right. split; [done|]. by apply Hreq.
Qed.

Lemma refused_registration_changes_nothing_witness :
  defineRequestConfig (OneConfig blankNameConfig) defaultWorld
  = (Throw NameRequired, defaultWorld) ∧
  defaultWorld = defaultWorld ∧
  ((NameRequired = InstanceExists (resolvedName blankNameConfig) ∧
    is_Some (instanceMap defaultWorld !! resolvedName blankNameConfig)) ∨
   (NameRequired = NameRequired ∧
    instanceName blankNameConfig = Some (Name EmptyString) ∧
    instanceMap defaultWorld !! Name EmptyString = None ∧
    is_Some (instanceMap defaultWorld !! DEFAULT_INSTANCE_NAME))).
Proof.
  assert (defineRequestConfig (OneConfig blankNameConfig) defaultWorld
          = (Throw NameRequired, defaultWorld)) as Hrun by (vm_compute; reflexivity).
  split; [exact Hrun|].
  exact (refused_registration_changes_nothing blankNameConfig defaultWorld
           NameRequired defaultWorld Hrun).
Defined.

(** X14.  A configuration whose resolved name is free is registered as soon
    as it has a non-empty name or no default instance exists yet: the call
    completes, the registry gains exactly the entry for that name, holding
    the instance built from the configuration, and the success message
    naming the instance is logged. *)
Theorem free_name_is_registered config w :
  instanceMap w !! resolvedName config = None →
  truthy_name (instanceName config) = true
  ∨ instanceMap w !! DEFAULT_INSTANCE_NAME = None →
  defineRequestConfig (OneConfig config) w =
  (Normal tt,
   {| instanceMap := <[resolvedName config := registered config]> (instanceMap w);
      events := events w ++
        [Logged ("Successfully defined request instance: "
                 +:+ String_ (resolvedName config))] |}).
Proof.
  intros Hfree Hok. unfold defineRequestConfig. simpl. unfold bind.
  rewrite defineOne_fresh by done.
  destruct Hok as [->|Hnone]; [done|].
  rewrite bool_decide_eq_false_2, andb_false_r; [done|].
  rewrite Hnone. by intros [? ?].
Qed.

Lemma free_name_is_registered_witness :
  instanceMap defaultWorld !! resolvedName shopConfig = None ∧
  (truthy_name (instanceName shopConfig) = true
   ∨ instanceMap defaultWorld !! DEFAULT_INSTANCE_NAME = None) ∧
  defineRequestConfig (OneConfig shopConfig) defaultWorld =
  (Normal tt,
   {| instanceMap := <[resolvedName shopConfig := registered shopConfig]>
                       (instanceMap defaultWorld);
      events := events defaultWorld ++
        [Logged ("Successfully defined request instance: "
                 +:+ String_ (resolvedName shopConfig))] |}).
Proof.
  assert (instanceMap defaultWorld !! resolvedName shopConfig = None) as Hfree
    by (vm_compute; reflexivity).
  split; [exact Hfree|]. split; [left; reflexivity|].
  exact (free_name_is_registered shopConfig defaultWorld Hfree (or_introl eq_refl)).
Defined.

Lemma warnings_app evs1 evs2 :
  warnings (evs1 ++ evs2) = warnings evs1 ++ warnings evs2.
Proof. apply omap_app. Qed.

Lemma warnings_ejected name side ids : warnings (Ejected name side <$> ids) = [].
Proof. induction ids as [|id ids IH]; [done|]. exact IH. Qed.

Lemma forEach_defineOne_never_warns configs : ∀ w,
  warnings (events (forEach defineOne configs w).2) = warnings (events w).
Proof.
  induction configs as [|c configs IH]; intros w; [done|].
  simpl. unfold bind.
  pose proof (defineOne_never_warns c w) as Hc.
  destruct (defineOne c w) as [[[]|e] w1]; simpl in *; [|done].
  by rewrite IH.
Qed.

Lemma request_never_warns send runHandler config w :
  warnings (events (request send runHandler config w).2) = warnings (events w).
Proof.
  unfold request, try_catch.
  assert (∀ e w2, warnings (events (request_catch runHandler config e w2).2)
                  = warnings (events w2)) as Hcatch.
  { intros e w2. rewrite request_catch_eq. destruct (truthy _); [done|].
    destruct (selectedHandler _ _) as [[l h]|]; [|done].
    simpl. by rewrite warnings_app, app_nil_r. }
  assert (∀ i, warnings (events (dispatched config i w)) = warnings (events w))
    as Hdisp.
  { intros i. unfold dispatched, dispatchEvents. simpl.
    rewrite warnings_app.
    change (warnings (Sent ?n ?c :: ?l)) with (warnings l).
    by rewrite warnings_app, !warnings_ejected, app_nil_r. }
  destruct (instanceMap w !! resolvedName config) as [i|] eqn:Hk.
  - rewrite (request_try_found send config w i Hk).
    destruct (send _ _) as [e|response]; [rewrite Hcatch|]; apply Hdisp.
  - rewrite (request_try_not_found send config w Hk). apply Hcatch.
Qed.

(** X15.  No call of the module ever reaches its [console.warn]: over any
    sequence of [defineRequestConfig] and [request] calls the warnings in the
    trace are the ones that were there. *)
Theorem module_never_warns send runHandler calls w :
  warnings (events (run send runHandler calls w)) = warnings (events w).
Proof.
  revert w. induction calls as [|c calls IH]; intros w; [done|].
  simpl. rewrite IH. destruct c as [configs|config]; simpl.
  - apply forEach_defineOne_never_warns.
  - apply request_never_warns.
Qed.

(** ** The verb helpers *)

(** X16.  Each of [get], [delete], [head] and [options] is [request] on the
    caller's configuration with [method] and [url] replaced (a [method] or
    [url] in the configuration is overridden, every other field is kept, an
    omitted configuration counts as [{}]): it targets the instance the
    configuration names, the default one when there is none, and the first
    thing it does on a registered target is the underlying call with the
    helper's verb, the given url and the full-response flag resolved against
    the instance defaults. *)
Theorem verb_helper_sends_verb_and_url send runHandler verb helper u config w i :
  (verb, helper) ∈ verbHelpers send runHandler →
  instanceMap w !! resolvedName (default emptyObject config) = Some i →
  let c := default emptyObject config in
  helper u config w = request send runHandler (withMethodAndUrl config verb u) w ∧
  ∃ tail,
    events (helper u config w).2 =
    events w
    ++ Sent (resolvedName c)
         {| url := Some u;
            method := Some verb;
            instanceName := instanceName c;
            skipErrorHandler := skipErrorHandler c;
            withFullResponse :=
              match withFullResponse c with
              | Some b => Some b
              | None => withFullResponse (Axios.defaults i)
              end;
            errorConfig := errorConfig c;
            interceptors := interceptors c;
            requestInterceptors := requestInterceptors c;
            responseInterceptors := responseInterceptors c |}
       :: tail.
Proof.
  intros Hin Hi c.
  assert (helper u config w = request send runHandler (withMethodAndUrl config verb u) w)
    as Hhelper.
  { unfold verbHelpers in Hin.
    repeat (apply elem_of_cons in Hin as [Hin|Hin];
            [by injection Hin as -> ->|]).
    by apply elem_of_nil in Hin. }
  split; [exact Hhelper|]. rewrite Hhelper.
  destruct (request_found_events send runHandler (withMethodAndUrl config verb u) w i Hi)
    as (tail & Hev & _).
  rewrite Hev. unfold dispatchEvents. eexists. reflexivity.
Qed.

Lemma verb_helper_sends_verb_and_url_witness :
  ("GET", httpRequest_get resolving returning) ∈ verbHelpers resolving returning ∧
  instanceMap apiWorld !! resolvedName (default emptyObject (Some callConfig))
    = Some (registered apiConfig) ∧
  httpRequest_get resolving returning "/items" (Some callConfig) apiWorld
  = request resolving returning (withMethodAndUrl (Some callConfig) "GET" "/items") apiWorld ∧
  ∃ tail,
    events (httpRequest_get resolving returning "/items" (Some callConfig) apiWorld).2 =
    events apiWorld
    ++ Sent (Name "api")
         {| url := Some "/items";
            method := Some "GET";
            instanceName := Some (Name "api");
            skipErrorHandler := None;
            withFullResponse := Some true;
            errorConfig := None;
            interceptors := None;
            requestInterceptors := requestInterceptors callConfig;
            responseInterceptors := responseInterceptors callConfig |}
       :: tail.
Proof.
  assert (("GET", httpRequest_get resolving returning) ∈ verbHelpers resolving returning)
    as Hin by apply list_elem_of_here.
  assert (instanceMap apiWorld !! resolvedName (default emptyObject (Some callConfig))
          = Some (registered apiConfig)) as Hi by (vm_compute; reflexivity).
  split; [exact Hin|]. split; [exact Hi|].
  exact (verb_helper_sends_verb_and_url resolving returning "GET"
           (httpRequest_get resolving returning) "/items" (Some callConfig)
           apiWorld (registered apiConfig) Hin Hi).
Defined.

(** * Calls that overlap *)

(** ** Ejections on a manager *)

Section EjectFacts.
Implicit Types m news : Axios.InterceptorManager.

(** [eject] empties the slot it is given, when there is one. *)
Lemma eject_insert id m :
  Axios.eject id m = if (id <? 0)%Z then m else <[Z.to_nat id := None]> m.
Proof.
  unfold Axios.eject. destruct (id <? 0)%Z; [done|].
  destruct (m !! Z.to_nat id) as [[h|]|] eqn:Hslot; [done| |].
  - symmetry. by apply list_insert_id.
  - symmetry. apply list_insert_ge. by apply lookup_ge_None.
Qed.

Lemma length_eject id m : length (Axios.eject id m) = length m.
Proof. rewrite eject_insert. destruct (id <? 0)%Z; [done|apply length_insert]. Qed.

Lemma length_ejectIds ids : ∀ m, length (ejectIds ids m) = length m.
Proof.
  induction ids as [|id ids IH]; intros m; [done|].
  unfold ejectIds in *. simpl. by rewrite IH, length_eject.
Qed.

Lemma eject_comm a b m :
  Axios.eject a (Axios.eject b m) = Axios.eject b (Axios.eject a m).
Proof.
  rewrite !eject_insert.
  destruct (a <? 0)%Z, (b <? 0)%Z; try done.
  destruct (decide (Z.to_nat a = Z.to_nat b)) as [->|Hne]; [done|].
  by apply list_insert_insert_ne.
Qed.

Lemma ejectIds_cons id ids m : ejectIds (id :: ids) m = ejectIds ids (Axios.eject id m).
Proof. done. Qed.

Lemma ejectIds_app ids1 ids2 m :
  ejectIds (ids1 ++ ids2) m = ejectIds ids2 (ejectIds ids1 m).
Proof. apply foldl_app. Qed.

Lemma ejectIds_eject ids : ∀ id m,
  ejectIds ids (Axios.eject id m) = Axios.eject id (ejectIds ids m).
Proof.
  induction ids as [|x ids IH]; intros id m; [done|].
  by rewrite !ejectIds_cons, <- IH, eject_comm.
Qed.

(** The order in which identifiers are ejected does not matter. *)
Lemma ejectIds_permutation ids1 ids2 :
  ids1 ≡ₚ ids2 → ∀ m, ejectIds ids1 m = ejectIds ids2 m.
Proof.
  induction 1 as [|x l1 l2 _ IH|x y l|l1 l2 l3 _ IH1 _ IH2]; intros m.
  - done.
  - by rewrite !ejectIds_cons, IH.
  - by rewrite !ejectIds_cons, eject_comm.
  - by rewrite IH1, IH2.
Qed.

(** Identifiers that point inside [m] leave what was pushed after [m] alone. *)
Lemma ejectIds_inside ids : ∀ m news,
  Forall (λ id, (0 ≤ id < Z.of_nat (length m))%Z) ids →
  ejectIds ids (m ++ news) = ejectIds ids m ++ news.
Proof.
  induction ids as [|id ids IH]; intros m news Hall; [done|].
  apply Forall_cons in Hall as [Hid Hall].
  rewrite !ejectIds_cons.
  assert (Axios.eject id (m ++ news) = Axios.eject id m ++ news) as ->.
  { rewrite !eject_insert.
    destruct (Z.ltb_spec id 0) as [?|_]; [lia|].
    apply insert_app_l. lia. }
  apply IH. by rewrite length_eject.
Qed.

End EjectFacts.

(** ** The identifiers held by suspended calls *)

Lemma heldRequestIds_snoc name pool p :
  heldRequestIds name (pool ++ [p]) =
  heldRequestIds name pool ++
  (if decide (resolvedName (pending_config p) = name)
   then pending_requestIds p else []).
Proof.
  unfold heldRequestIds. rewrite fmap_app, concat_app. simpl.
  by rewrite app_nil_r.
Qed.

Lemma heldResponseIds_snoc name pool p :
  heldResponseIds name (pool ++ [p]) =
  heldResponseIds name pool ++
  (if decide (resolvedName (pending_config p) = name)
   then pending_responseIds p else []).
Proof.
  unfold heldResponseIds. rewrite fmap_app, concat_app. simpl.
  by rewrite app_nil_r.
Qed.

Lemma heldRequestIds_delete name pool k p :
  pool !! k = Some p →
  heldRequestIds name pool ≡ₚ
  (if decide (resolvedName (pending_config p) = name)
   then pending_requestIds p else [])
  ++ heldRequestIds name (delete k pool).
Proof.
  intros Hk. rewrite delete_take_drop.
  rewrite <- (take_drop_middle pool k p Hk) at 1.
  unfold heldRequestIds. rewrite !fmap_app, fmap_cons, !concat_app. simpl.
  by rewrite Permutation_app_swap_app.
Qed.

Lemma heldResponseIds_delete name pool k p :
  pool !! k = Some p →
  heldResponseIds name pool ≡ₚ
  (if decide (resolvedName (pending_config p) = name)
   then pending_responseIds p else [])
  ++ heldResponseIds name (delete k pool).
Proof.
  intros Hk. rewrite delete_take_drop.
  rewrite <- (take_drop_middle pool k p Hk) at 1.
  unfold heldResponseIds. rewrite !fmap_app, fmap_cons, !concat_app. simpl.
  by rewrite Permutation_app_swap_app.
Qed.

(** ** The two halves of a call *)

Lemma forEach_eject_alter (eject : InterceptorId → AxiosInstance → AxiosInstance)
    name side ids : ∀ w,
  forEach (λ id, bind (mutate name (eject id))
                      (λ _, emit (Ejected name side id))) ids w
  = (Normal tt,
     {| instanceMap := alter (λ i, foldl (λ i id, eject id i) i ids) name (instanceMap w);
        events := events w ++ (Ejected name side <$> ids) |}).
Proof.
  induction ids as [|id ids IH]; intros [m evs]; simpl.
  - unfold ret. by rewrite alter_id, app_nil_r.
  - unfold bind at 1. unfold bind at 1. unfold mutate, emit. simpl.
    rewrite IH. simpl. by rewrite alter_alter_eq, <- app_assoc.
Qed.

Lemma request_prepare_not_found config w :
  instanceMap w !! resolvedName config = None →
  request_prepare config w = (Throw (InstanceNotFound (resolvedName config)), w).
Proof.
  intros Hnone. unfold request_prepare, getRequestInstance, bind, Map_get.
  simpl. fold (resolvedName config). by rewrite Hnone.
Qed.

Lemma request_prepare_found config w i :
  instanceMap w !! resolvedName config = Some i →
  request_prepare config w =
  (Normal {| pending_config := config;
             pending_merged := mergeConfig config (Some (Axios.defaults i));
             pending_requestIds := requestIds (oneShot config i);
             pending_responseIds := responseIds (oneShot config i) |},
   {| instanceMap := <[resolvedName config := instance_ (oneShot config i)]> (instanceMap w);
      events := events w
                ++ [Sent (resolvedName config)
                         (mergeConfig config (Some (Axios.defaults i)))] |}).
Proof.
  intros Hi. unfold request_prepare, getRequestInstance.
  fold (resolvedName config).
  unfold bind at 1. unfold bind at 1. unfold Map_get. simpl. rewrite Hi.
  unfold ret at 1. unfold bind at 1. rewrite Map_find_entry_lookup, Hi. simpl.
  fold (oneShot config i). done.
Qed.

Section ResumptionFacts.
Context (runHandler : Fn → Error → CustomRequestConfig → option Error).

(** The cleanup of a resumed call, as an equation. *)
Lemma request_settle_cleanup p w :
  bind (forEach (λ id, bind (mutate (resolvedName (pending_config p))
                                    (Axios.eject_request id))
                            (λ _, emit (Ejected (resolvedName (pending_config p))
                                                RequestSide id)))
                (pending_requestIds p))
       (λ _, forEach (λ id, bind (mutate (resolvedName (pending_config p))
                                         (Axios.eject_response id))
                                 (λ _, emit (Ejected (resolvedName (pending_config p))
                                                     ResponseSide id)))
                     (pending_responseIds p)) w
  = (Normal tt,
     {| instanceMap :=
          alter (λ i, foldl (λ i id, Axios.eject_response id i)
                        (foldl (λ i id, Axios.eject_request id i) i
                           (pending_requestIds p))
                        (pending_responseIds p))
                (resolvedName (pending_config p)) (instanceMap w);
        events := events w
                  ++ (Ejected (resolvedName (pending_config p)) RequestSide
                        <$> pending_requestIds p)
                  ++ (Ejected (resolvedName (pending_config p)) ResponseSide
                        <$> pending_responseIds p) |}).
Proof.
  unfold bind at 1. rewrite forEach_eject_alter, forEach_eject_alter. simpl.
  by rewrite alter_alter_eq, <- app_assoc.
Qed.

(** What a resumed call does to the registry: it ejects the identifiers it
    holds from the instance it targets, and nothing else. *)
Lemma request_settle_instanceMap p settlement w :
  instanceMap (request_settle runHandler p settlement w).2 =
  alter (λ i, foldl (λ i id, Axios.eject_response id i)
                (foldl (λ i id, Axios.eject_request id i) i (pending_requestIds p))
                (pending_responseIds p))
        (resolvedName (pending_config p)) (instanceMap w).
Proof.
  unfold request_settle, try_catch, try_finally.
  fold (resolvedName (pending_config p)).
  destruct settlement as [e|response]; unfold throw, ret;
    rewrite request_settle_cleanup; [|done].
  by rewrite request_catch_instanceMap.
Qed.

(** The ejections a resumed call makes: the identifiers it holds, the
    request-side ones first. *)
Lemma request_settle_ejections p settlement w :
  ejections (events (request_settle runHandler p settlement w).2) =
  ejections (events w)
  ++ ((λ id, (resolvedName (pending_config p), RequestSide, id))
        <$> pending_requestIds p)
  ++ ((λ id, (resolvedName (pending_config p), ResponseSide, id))
        <$> pending_responseIds p).
Proof.
  unfold request_settle, try_catch, try_finally.
  fold (resolvedName (pending_config p)).
  assert (∀ w2 : World,
            ejections (events w2 ++
                       (Ejected (resolvedName (pending_config p)) RequestSide
                          <$> pending_requestIds p)
                       ++ (Ejected (resolvedName (pending_config p)) ResponseSide
                          <$> pending_responseIds p))
            = ejections (events w2)
              ++ ((λ id, (resolvedName (pending_config p), RequestSide, id))
                    <$> pending_requestIds p)
              ++ ((λ id, (resolvedName (pending_config p), ResponseSide, id))
                    <$> pending_responseIds p)) as Hej.
  { intros w2. by rewrite !ejections_app, !ejections_ejected. }
  destruct settlement as [e|response]; unfold throw, ret;
    rewrite request_settle_cleanup; [|apply Hej].
  rewrite request_catch_eq. destruct (truthy _); cbn [snd events]; [apply Hej|].
  destruct (selectedHandler _ _) as [[l h]|]; cbn [snd events]; [|apply Hej].
  rewrite ejections_app, Hej. simpl. by rewrite app_nil_r.
Qed.

(** The call that nothing interleaves with is its first half followed at
    once by its second half, resumed with the settlement of the transport. *)
Lemma request_is_prepare_then_settle send config w :
  request send runHandler config w =
  match request_prepare config w with
  | (Normal p, w1) =>
      request_settle runHandler p
        (match instanceMap w1 !! resolvedName config with
         | Some i => send i (pending_merged p)
         | None => inl (InstanceNotFound (resolvedName config))
         end) w1
  | (Throw e, w1) => request_catch runHandler config e w1
  end.
Proof.
  destruct (instanceMap w !! resolvedName config) as [i|] eqn:Hk.
  - rewrite (request_prepare_found config w i Hk). cbn [instanceMap].
    rewrite lookup_insert_eq. cbn [pending_merged].
    unfold request, try_catch.
    rewrite (request_try_found send config w i Hk).
    unfold request_settle, try_catch, try_finally.
    cbn [pending_config pending_merged].
    fold (resolvedName config).
    assert (∀ w1, instanceMap w1
                  = <[resolvedName config := instance_ (oneShot config i)]> (instanceMap w) →
                  events w1 = events w ++ [Sent (resolvedName config)
                                 (mergeConfig config (Some (Axios.defaults i)))] →
              {| instanceMap :=
                   alter (λ i0, foldl (λ i1 id, Axios.eject_response id i1)
                                  (foldl (λ i1 id, Axios.eject_request id i1) i0
                                     (requestIds (oneShot config i)))
                                  (responseIds (oneShot config i)))
                         (resolvedName config) (instanceMap w1);
                 events := events w1
                   ++ (Ejected (resolvedName config) RequestSide
                         <$> requestIds (oneShot config i))
                   ++ (Ejected (resolvedName config) ResponseSide
                         <$> responseIds (oneShot config i)) |}
              = dispatched config i w) as Hsame.
    { intros w1 -> ->. unfold dispatched, dispatchEvents, ejectAll.
      rewrite alter_insert_eq. f_equal.
      by rewrite <- app_assoc. }
    destruct (send _ _) as [e|response]; unfold throw, ret;
      rewrite (request_settle_cleanup
                 {| pending_config := config;
                    pending_merged := mergeConfig config (Some (Axios.defaults i));
                    pending_requestIds := requestIds (oneShot config i);
                    pending_responseIds := responseIds (oneShot config i) |});
      cbn [pending_config pending_requestIds pending_responseIds];
      by rewrite Hsame.
  - rewrite (request_prepare_not_found config w Hk).
    unfold request, try_catch.
    by rewrite (request_try_not_found send config w Hk).
Qed.

End ResumptionFacts.

(** ** What every action keeps *)

Section HeldFacts.
Implicit Types m news : Axios.InterceptorManager.

(** A call that starts pushes slots and holds their identifiers: with these
    ejected too, the chain is what it was. *)
Lemma held_push m held news :
  Forall (λ id, (0 ≤ id < Z.of_nat (length m))%Z) held →
  Axios.chain (ejectIds (held ++ (Z.of_nat <$> seq (length m) (length news)))
                 (m ++ news))
  = Axios.chain (ejectIds held m) ∧
  Forall (λ id, (0 ≤ id < Z.of_nat (length (m ++ news)))%Z)
         (held ++ (Z.of_nat <$> seq (length m) (length news))).
Proof.
  intros Hbound. split.
  - rewrite ejectIds_app, ejectIds_inside by done.
    rewrite <- (length_ejectIds held m). unfold ejectIds at 1.
    by rewrite eject_block_chain.
  - apply Forall_app. split.
    + eapply Forall_impl; [exact Hbound|]. intros id. simpl.
      rewrite length_app. lia.
    + apply Forall_forall. intros id Hid.
      apply list_elem_of_fmap in Hid as (n & -> & Hn).
      apply elem_of_seq in Hn. rewrite length_app. lia.
Qed.

(** A call that resumes ejects the identifiers it held: the chain with the
    identifiers still held ejected is what it was. *)
Lemma held_pop m held ids rest :
  held ≡ₚ ids ++ rest →
  Forall (λ id, (0 ≤ id < Z.of_nat (length m))%Z) held →
  Axios.chain (ejectIds rest (ejectIds ids m)) = Axios.chain (ejectIds held m) ∧
  Forall (λ id, (0 ≤ id < Z.of_nat (length (ejectIds ids m)))%Z) rest.
Proof.
  intros Hperm Hbound. split.
  - by rewrite <- ejectIds_app, (ejectIds_permutation _ _ Hperm).
  - rewrite length_ejectIds. rewrite Hperm in Hbound.
    by apply Forall_app in Hbound as [_ ?].
Qed.

End HeldFacts.

Lemma oneShot_grownBy config i :
  oneShot config i = grownBy i true (declaredRequest config) (declaredResponse config).
Proof.
  unfold oneShot. rewrite addInterceptorsToInstance_grownBy.
  by destruct (declared_mergeConfig config (Some (Axios.defaults i))) as [-> ->].
Qed.

Lemma Held_begin name pool d onRequest onResponse i config :
  resolvedName config = name →
  Held name pool d onRequest onResponse i →
  Held name
    (pool ++ [{| pending_config := config;
                 pending_merged := mergeConfig config (Some (Axios.defaults i));
                 pending_requestIds := requestIds (oneShot config i);
                 pending_responseIds := responseIds (oneShot config i) |}])
    d onRequest onResponse (instance_ (oneShot config i)).
Proof.
  intros Hname [Hd Hq Hs Hbq Hbs].
  rewrite oneShot_grownBy. unfold grownBy.
  cbn [instance_ requestIds responseIds].
  destruct (held_push (Axios.request (Axios.interceptors i))
              (heldRequestIds name pool)
              (Some <$> omap normalized (declaredRequest config)) Hbq) as [Hq' Hbq'].
  destruct (held_push (Axios.response (Axios.interceptors i))
              (heldResponseIds name pool)
              (Some <$> omap normalized (declaredResponse config)) Hbs) as [Hs' Hbs'].
  rewrite length_fmap in Hq', Hbq', Hs', Hbs'.
  split; cbn [Axios.defaults Axios.interceptors Axios.request Axios.response];
    rewrite ?heldRequestIds_snoc, ?heldResponseIds_snoc;
    cbn [pending_config pending_requestIds pending_responseIds];
    rewrite ?decide_True by done; congruence.
Qed.

Lemma Held_begin_other name pool d onRequest onResponse i p :
  resolvedName (pending_config p) ≠ name →
  Held name pool d onRequest onResponse i →
  Held name (pool ++ [p]) d onRequest onResponse i.
Proof.
  intros Hname [Hd Hq Hs Hbq Hbs].
  split; rewrite ?heldRequestIds_snoc, ?heldResponseIds_snoc;
    rewrite ?decide_False, ?app_nil_r by done; done.
Qed.

Lemma Held_settle name pool d onRequest onResponse i k p :
  pool !! k = Some p →
  resolvedName (pending_config p) = name →
  Held name pool d onRequest onResponse i →
  Held name (delete k pool) d onRequest onResponse
    (foldl (λ i id, Axios.eject_response id i)
       (foldl (λ i id, Axios.eject_request id i) i (pending_requestIds p))
       (pending_responseIds p)).
Proof.
  intros Hk Hname [Hd Hq Hs Hbq Hbs].
  pose proof (heldRequestIds_delete name pool k p Hk) as Hpq.
  pose proof (heldResponseIds_delete name pool k p Hk) as Hps.
  rewrite decide_True in Hpq, Hps by done.
  destruct (held_pop _ _ _ _ Hpq Hbq) as [Hq' Hbq'].
  destruct (held_pop _ _ _ _ Hps Hbs) as [Hs' Hbs'].
  rewrite foldl_eject_response, foldl_eject_request.
  split; cbn [Axios.defaults Axios.interceptors Axios.request Axios.response];
    [done| | | |].
  - by rewrite <- Hq.
  - by rewrite <- Hs.
  - exact Hbq'.
  - exact Hbs'.
Qed.

Lemma Held_settle_other name pool d onRequest onResponse i k p :
  pool !! k = Some p →
  resolvedName (pending_config p) ≠ name →
  Held name pool d onRequest onResponse i →
  Held name (delete k pool) d onRequest onResponse i.
Proof.
  intros Hk Hname [Hd Hq Hs Hbq Hbs].
  pose proof (heldRequestIds_delete name pool k p Hk) as Hpq.
  pose proof (heldResponseIds_delete name pool k p Hk) as Hps.
  rewrite decide_False in Hpq, Hps by done. simpl in Hpq, Hps.
  split; [done| | | |].
  - by rewrite <- (ejectIds_permutation _ _ Hpq).
  - by rewrite <- (ejectIds_permutation _ _ Hps).
  - by rewrite <- Hpq.
  - by rewrite <- Hps.
Qed.

Section InterleavingFacts.
Context (runHandler : Fn → Error → CustomRequestConfig → option Error).

Lemma act_keeps name d onRequest onResponse a s :
  Settled name d onRequest onResponse s →
  Settled name d onRequest onResponse (act runHandler a s).
Proof.
  intros (i & Hi & Hheld). unfold Settled.
  destruct a as [configs|config|k settlement]; cbn [act].
  - exists i. split; [|done]. cbn [world]. by apply defineRequestConfig_keeps.
  - destruct (instanceMap (world s) !! resolvedName config) as [j|] eqn:Hk.
    + rewrite (request_prepare_found config (world s) j Hk).
      cbn [world inflight instanceMap].
      destruct (decide (resolvedName config = name)) as [Heq|Hne].
      * rewrite Heq in *. assert (j = i) as -> by congruence.
        eexists. split; [apply lookup_insert_eq|].
        by apply Held_begin.
      * exists i. split; [by rewrite lookup_insert_ne|].
        by apply Held_begin_other.
    + rewrite (request_prepare_not_found config (world s) Hk).
      cbn [world inflight].
      exists i. by rewrite request_catch_instanceMap.
  - destruct (inflight s !! k) as [p|] eqn:Hk; [|by exists i].
    cbn [world inflight]. rewrite request_settle_instanceMap.
    destruct (decide (resolvedName (pending_config p) = name)) as [Heq|Hne].
    + eexists. split; [by rewrite Heq, lookup_alter_eq, Hi|].
      by apply Held_settle.
    + exists i. split; [by rewrite lookup_alter_ne|].
      by eapply Held_settle_other.
Qed.

Lemma exec_keeps name d onRequest onResponse actions : ∀ s,
  Settled name d onRequest onResponse s →
  Settled name d onRequest onResponse (exec runHandler actions s).
Proof.
  induction actions as [|a actions IH]; intros s Hs; [done|].
  simpl. apply IH. by apply act_keeps.
Qed.

(** A registration that completes, with no call in flight, establishes the
    invariant for each of its configurations. *)
Lemma registration_settled configs config w w' :
  defineRequestConfig configs w = (Normal tt, w') →
  config ∈ configsArray configs →
  Settled (resolvedName config) config
    (Axios.chain (Axios.request (Axios.interceptors (registered config))))
    (Axios.chain (Axios.response (Axios.interceptors (registered config))))
    {| world := w'; inflight := [] |}.
Proof.
  intros Hdef Hin. exists (registered config). split.
  - exact (defineRequestConfig_stores configs config w w' Hdef Hin).
  - split; [apply registered_defaults|done|done|constructor|constructor].
Qed.

End InterleavingFacts.

(** ** The one-shot interceptors of overlapping calls *)

Lemma heldRequestIds_none name pool :
  Forall (λ q, resolvedName (pending_config q) ≠ name) pool →
  heldRequestIds name pool = [].
Proof.
  induction 1 as [|q pool Hq _ IH]; [done|].
  unfold heldRequestIds in *. cbn [fmap list_fmap concat].
  by rewrite decide_False, IH.
Qed.

Lemma heldResponseIds_none name pool :
  Forall (λ q, resolvedName (pending_config q) ≠ name) pool →
  heldResponseIds name pool = [].
Proof.
  induction 1 as [|q pool Hq _ IH]; [done|].
  unfold heldResponseIds in *. cbn [fmap list_fmap concat].
  by rewrite decide_False, IH.
Qed.

(** C1 (as stated, refuted).  Two calls of [request(callConfig)] to the
    instance [api] overlap: the first suspends, the second suspends, the
    underlying call of the first resolves and the first call completes.  Its
    own one-shot interceptors are ejected, but the request chain of the
    instance then holds, after the permanent interceptor, the two one-shot
    interceptors of the second call. *)
Lemma overlapping_call_leaves_interceptors_on_the_chain :
  pending_config <$>
    inflight (exec returning
                [ActBegin callConfig; ActBegin callConfig; ActSettle 0 (inr okResponse)]
                {| world := apiWorld; inflight := [] |})
  = [callConfig] ∧
  (λ i : AxiosInstance, Axios.chain (Axios.request (Axios.interceptors i)))
    <$> instanceMap (world (exec returning
              [ActBegin callConfig; ActBegin callConfig; ActSettle 0 (inr okResponse)]
              {| world := apiWorld; inflight := [] |})) !! Name "api"
  = Some [{| Axios.fulfilled := VFunction 10; Axios.rejected := VRethrow |};
          {| Axios.fulfilled := VFunction 1; Axios.rejected := VUndefined |};
          {| Axios.fulfilled :=
               VObject {| onConfig := Absent; onError := Present (Some 3) |};
             Axios.rejected := VUndefined |}] ∧
  Axios.chain (Axios.request (Axios.interceptors (registered apiConfig)))
  = [{| Axios.fulfilled := VFunction 10; Axios.rejected := VRethrow |}].
Proof. split; [|split]; vm_compute; reflexivity. Qed.

(** C1 (amended).  Register [config0]; let any actions follow, calls of
    [request] overlapping at will; let a suspended call to that instance be
    resumed, its underlying call having resolved or been rejected.  The
    completing call ejects exactly the identifiers it holds, the request-side
    ones first, then the response-side ones.  Afterwards the interceptors on
    the chains of the instance are the permanent ones of the registration
    and, beside them, only one-shot interceptors of calls to that instance
    that are still suspended: with the identifiers those calls hold ejected,
    both chains are the registered ones, and they are the registered ones as
    they stand when no other call to that instance is in flight. *)
Theorem completed_request_ejects_its_one_shot_interceptors
    runHandler configs config0 w0 w1 actions k p settlement :
  defineRequestConfig configs w0 = (Normal tt, w1) →
  config0 ∈ configsArray configs →
  inflight (exec runHandler actions {| world := w1; inflight := [] |}) !! k = Some p →
  resolvedName (pending_config p) = resolvedName config0 →
  let name := resolvedName config0 in
  let s := exec runHandler actions {| world := w1; inflight := [] |} in
  let s' := act runHandler (ActSettle k settlement) s in
  inflight s' = delete k (inflight s) ∧
  ejections (events (world s'))
    = ejections (events (world s))
      ++ ((λ id, (name, RequestSide, id)) <$> pending_requestIds p)
      ++ ((λ id, (name, ResponseSide, id)) <$> pending_responseIds p) ∧
  ∃ i',
    instanceMap (world s') !! name = Some i' ∧
    Axios.chain (ejectIds (heldRequestIds name (inflight s'))
                   (Axios.request (Axios.interceptors i')))
      = Axios.chain (Axios.request (Axios.interceptors (registered config0))) ∧
    Axios.chain (ejectIds (heldResponseIds name (inflight s'))
                   (Axios.response (Axios.interceptors i')))
      = Axios.chain (Axios.response (Axios.interceptors (registered config0))) ∧
    (Forall (λ q, resolvedName (pending_config q) ≠ name) (inflight s') →
     Axios.chain (Axios.request (Axios.interceptors i'))
       = Axios.chain (Axios.request (Axios.interceptors (registered config0))) ∧
     Axios.chain (Axios.response (Axios.interceptors i'))
       = Axios.chain (Axios.response (Axios.interceptors (registered config0)))).
Proof.
  intros Hdef Hin Hk Hname name s s'.
  pose proof (registration_settled configs config0 w0 w1 Hdef Hin) as Hstart.
  pose proof (exec_keeps runHandler _ _ _ _ (actions ++ [ActSettle k settlement])
                _ Hstart) as Hend.
  unfold exec in Hend. rewrite foldl_app in Hend. cbn [foldl] in Hend.
  fold (exec runHandler actions {| world := w1; inflight := [] |}) in Hend.
  fold s in Hend. fold s' in Hend. fold name in Hend.
  assert (s' = {| world := (request_settle runHandler p settlement (world s)).2;
                  inflight := delete k (inflight s) |}) as Hs'.
  { unfold s'. cbn [act]. fold s in Hk. by rewrite Hk. }
  split; [by rewrite Hs'|]. split.
  - rewrite Hs'. cbn [world]. rewrite request_settle_ejections.
    unfold name. by rewrite Hname.
  - destruct Hend as (i' & Hi' & [_ Hq Hs _ _]).
    exists i'. split; [done|]. split; [done|]. split; [done|].
    intros Hquiet.
    rewrite (heldRequestIds_none name _ Hquiet) in Hq.
    rewrite (heldResponseIds_none name _ Hquiet) in Hs.
    done.
Qed.

Lemma completed_request_ejects_its_one_shot_interceptors_witness :
  defineRequestConfig (OneConfig apiConfig) emptyWorld = (Normal tt, apiWorld) ∧
  apiConfig ∈ configsArray (OneConfig apiConfig) ∧
  inflight (exec throwing [ActBegin callConfig; ActBegin callConfig]
              {| world := apiWorld; inflight := [] |}) !! 0 = Some suspendedCall ∧
  resolvedName (pending_config suspendedCall) = resolvedName apiConfig ∧
  ejections (events (world
     (act throwing (ActSettle 0 (inl (Foreign 9)))
        (exec throwing [ActBegin callConfig; ActBegin callConfig]
           {| world := apiWorld; inflight := [] |}))))
  = ejections (events (world
        (exec throwing [ActBegin callConfig; ActBegin callConfig]
           {| world := apiWorld; inflight := [] |})))
    ++ ((λ id, (resolvedName apiConfig, RequestSide, id))
          <$> pending_requestIds suspendedCall)
    ++ ((λ id, (resolvedName apiConfig, ResponseSide, id))
          <$> pending_responseIds suspendedCall).
Proof.
  assert (defineRequestConfig (OneConfig apiConfig) emptyWorld = (Normal tt, apiWorld))
    as Hdef by (vm_compute; reflexivity).
  assert (apiConfig ∈ configsArray (OneConfig apiConfig)) as Hin
    by apply list_elem_of_here.
  assert (inflight (exec throwing [ActBegin callConfig; ActBegin callConfig]
                      {| world := apiWorld; inflight := [] |}) !! 0
          = Some suspendedCall) as Hk by (vm_compute; reflexivity).
  split; [exact Hdef|]. split; [exact Hin|]. split; [exact Hk|].
  split; [reflexivity|].
  destruct (completed_request_ejects_its_one_shot_interceptors throwing
              (OneConfig apiConfig) apiConfig emptyWorld apiWorld
              [ActBegin callConfig; ActBegin callConfig] 0 suspendedCall
              (inl (Foreign 9)) Hdef Hin Hk eq_refl) as (_ & Hej & _).
  exact Hej.
Defined.
